(** * backend_abb_analytic: request helpers, server capacity and guards

    A shallow embedding of the parts of the REST backend that carry
    logic of their own: the pagination, search and sort helpers, the
    capacity-aware server selection utility, the server CRUD handlers
    and the two authentication middlewares.

    Conventions of the embedding.
    - A JavaScript number that holds a row count, an identifier or a
      capacity counter is an integer of [Z]; a quotient of two such
      numbers is an exact rational of [Q].  The doubles of the source
      agree with these exact numbers on a range only: on integers up to
      [JS.MAX_EXACT], and, for the order of two utilization percentages,
      on the tables of [ServerSelection.exactCounters].  A statement
      that depends on the exact value of a product or on the order of
      two quotients carries that range as a hypothesis.
    - A JavaScript string is a [string]; its characters are read as code
      units below 256.  [undefined] is [None].
    - A table of the database is a finite map from the primary key to
      the row.  A failing connection is left out; the failures a
      request can cause by itself are kept as the 500 of the [catch]
      branch: an id parameter that is not a number, and a row that the
      columns of the table cannot hold.
    - [async] functions run to completion one after the other: a handler
      is a function from the database to the new database and the
      response. *)

From Stdlib Require Import ZArith QArith Qround String Ascii List Bool Lia Lqa.
From stdpp Require Import gmap strings list.

Local Open Scope string_scope.
Local Open Scope Z_scope.

(** ** JavaScript built-ins used by the helpers *)

Module JS.

(** WhiteSpace and LineTerminator code units below 256, as stripped by
    [String.prototype.trim] and skipped by [parseInt]. *)
Definition isWhiteSpace (c : ascii) : bool :=
  let n := Z.of_nat (nat_of_ascii c) in
  (n =? 9) || (n =? 10) || (n =? 11) || (n =? 12) || (n =? 13)
  || (n =? 32) || (n =? 160).

Definition isEmpty (s : string) : bool :=
  match s with EmptyString => true | String _ _ => false end.

Fixpoint trimStart (s : string) : string :=
  match s with
  | EmptyString => EmptyString
  | String c s' => if isWhiteSpace c then trimStart s' else s
  end.

Fixpoint trimEnd (s : string) : string :=
  match s with
  | EmptyString => EmptyString
  | String c s' =>
      let t := trimEnd s' in
      if isWhiteSpace c && isEmpty t then EmptyString else String c t
  end.

Definition trim (s : string) : string := trimEnd (trimStart s).

(** Truthiness of an optional string: [undefined] and [""] are falsy. *)
Definition truthy (o : option string) : bool :=
  match o with
  | Some s => negb (isEmpty s)
  | None => false
  end.

(** [a || b] on optional strings. *)
Definition orElse (a b : option string) : option string :=
  if truthy a then a else b.

Definition digitValue (c : ascii) : option Z :=
  let n := Z.of_nat (nat_of_ascii c) in
  if (48 <=? n) && (n <=? 57) then Some (n - 48)
  else if (97 <=? n) && (n <=? 122) then Some (n - 97 + 10)
  else if (65 <=? n) && (n <=? 90) then Some (n - 65 + 10)
  else None.

(** The longest prefix of digits of the radix, read as a number; [None]
    when the prefix is empty. *)
Fixpoint parseDigits (radix : Z) (s : string) (acc : option Z) : option Z :=
  match s with
  | EmptyString => acc
  | String c s' =>
      match digitValue c with
      | Some d =>
          if d <? radix
          then parseDigits radix s'
                 (Some (match acc with Some a => a * radix + d | None => d end))
          else acc
      | None => acc
      end
  end.

Definition hasHexPrefix (s : string) : bool :=
  match s with
  | String "0" (String "x" _) => true
  | String "0" (String "X" _) => true
  | _ => false
  end.

Definition parseUnsigned (s : string) : option Z :=
  if hasHexPrefix s
  then parseDigits 16 (substring 2 (String.length s - 2) s) None
  else parseDigits 10 s None.

(** [parseInt(x)] without a radix; [None] is [NaN]. *)
Definition parseInt (x : option string) : option Z :=
  match x with
  | None => None
  | Some str =>
      match trimStart str with
      | String "-" s' => option_map Z.opp (parseUnsigned s')
      | String "+" s' => parseUnsigned s'
      | s => parseUnsigned s
      end
  end.

(** [n || d] on a number: [NaN] and [0] are falsy. *)
Definition numOr (n : option Z) (d : Z) : Z :=
  match n with
  | Some v => if v =? 0 then d else v
  | None => d
  end.

(** [Math.ceil(a / b)] on two integers. *)
Definition ceilDiv (a b : Z) : Z :=
  Qceiling (inject_Z a / inject_Z b).

(** [s.split(sep)] for a separator of one character: never empty. *)
Fixpoint split (sep : ascii) (s : string) : list string :=
  match s with
  | EmptyString => [EmptyString]
  | String c s' =>
      let rest := split sep s' in
      if Ascii.eqb c sep then EmptyString :: rest
      else
        match rest with
        | piece :: pieces => String c piece :: pieces
        | [] => [String c EmptyString]
        end
  end.

Fixpoint dropChars (n : nat) (s : string) : string :=
  match n, s with
  | O, _ => s
  | S n', String _ s' => dropChars n' s'
  | S _, EmptyString => EmptyString
  end.

(** [s.replace(pattern, replacement)] for a string pattern: the first
    occurrence only. *)
Fixpoint replace (pattern replacement s : string) : string :=
  if String.prefix pattern s
  then replacement ++ dropChars (String.length pattern) s
  else
    match s with
    | EmptyString => EmptyString
    | String c s' => String c (replace pattern replacement s')
    end.

(** [l.includes(s)] on an array of strings. *)
Definition includes (l : list string) (s : string) : bool :=
  existsb (String.eqb s) l.

(** Integers up to [2^53] in absolute value are held exactly by a
    JavaScript number, and sums, products and quotients of such
    integers that stay below this bound are computed exactly.  The
    embedding keeps every number exact; a statement that depends on a
    value the code would round names the bound as a hypothesis. *)
Definition MAX_EXACT : Z := 2 ^ 53.

(** [parseInt(x, 10)]: no hexadecimal prefix is recognised. *)
Definition parseIntRadix10 (x : option string) : option Z :=
  match x with
  | None => None
  | Some str =>
      match trimStart str with
      | String "-" s' => option_map Z.opp (parseDigits 10 s' None)
      | String "+" s' => parseDigits 10 s' None
      | s => parseDigits 10 s None
      end
  end.

End JS.

(** ** The query string of a request *)

Record Query := mkQuery {
  q_page : option string;
  q_limit : option string;
  q_search : option string;
  q_sortBy : option string;
  q_sortOrder : option string
}.

(** ** utils/pagination *)

Module Pagination.

Record PaginationOptions := mkPaginationOptions {
  maxLimit : option Z;
  defaultLimit : option Z
}.

Definition noOptions : PaginationOptions := mkPaginationOptions None None.

Record PaginationParams := mkPaginationParams {
  page : Z;
  limit : Z;
  skip : Z
}.

Record PaginationMeta := mkPaginationMeta {
  m_page : Z;
  m_limit : Z;
  m_total : Z;
  m_totalPages : Z;
  m_hasNext : bool;
  m_hasPrev : bool
}.

Record PaginatedResponse (T : Type) := mkPaginatedResponse {
  success : bool;
  data : list T;
  pagination : PaginationMeta
}.
Arguments mkPaginatedResponse {T}.
Arguments success {T}.
Arguments data {T}.
Arguments pagination {T}.

(** The page, the limit and their product are exact integers here; they
    are the numbers of the code as long as they stay below
    [JS.MAX_EXACT]. *)
Definition getPaginationParams (q : Query) (options : PaginationOptions)
  : PaginationParams :=
  let maxLimit := default 100 (maxLimit options) in
  let defaultLimit := default 10 (defaultLimit options) in
  let page := Z.max 1 (JS.numOr (JS.parseInt (q_page q)) 1) in
  let limit := JS.numOr (JS.parseInt (q_limit q)) defaultLimit in
  let limit := Z.min limit maxLimit in
  let limit := Z.max 1 limit in
  let skip := (page - 1) * limit in
  mkPaginationParams page limit skip.

Definition createPaginationMeta (page limit total : Z) : PaginationMeta :=
  let totalPages := JS.ceilDiv total limit in
  mkPaginationMeta page limit total totalPages
    (page <? totalPages) (1 <? page).

Definition createPaginatedResponse {T} (data : list T)
  (pagination : PaginationMeta) : PaginatedResponse T :=
  mkPaginatedResponse true data pagination.

(** [countFn] and [dataFn] are the two queries of the caller; both are
    awaited before the metadata is built. *)
Definition handlePagination {T} (q : Query) (countFn : unit -> Z)
  (dataFn : PaginationParams -> list T) (options : PaginationOptions)
  : PaginatedResponse T :=
  let paginationParams := getPaginationParams q options in
  let total := countFn tt in
  let data := dataFn paginationParams in
  let paginationMeta :=
    createPaginationMeta (page paginationParams) (limit paginationParams) total in
  createPaginatedResponse data paginationMeta.

(** The two queries every list controller hands to [handlePagination]:
    [count({where})] and [findMany({where, orderBy, skip, take: limit})],
    over the rows that match the where-clause, in the requested order. *)
Definition count {T} (rows : list T) : unit -> Z :=
  fun _ => Z.of_nat (length rows).

Definition findMany {T} (rows : list T) (skip take : Z) : list T :=
  firstn (Z.to_nat take) (skipn (Z.to_nat skip) rows).

Definition listRows {T} (rows : list T) (q : Query)
  (options : PaginationOptions) : PaginatedResponse T :=
  handlePagination q (count rows)
    (fun p => findMany rows (skip p) (limit p)) options.

End Pagination.

(** ** utils/search *)

Module Search.

Inductive SearchMode := contains | startsWith | endsWith.

Record SearchOptions := mkSearchOptions {
  o_searchFields : option (list string);
  o_searchMode : option SearchMode
}.

Record SearchParams := mkSearchParams {
  search : option string;
  searchFields : list string
}.

(** One entry [{ [field]: { [searchMode]: search } }] of a where-clause. *)
Record FieldFilter := mkFieldFilter {
  ff_field : string;
  ff_mode : SearchMode;
  ff_term : string
}.

(** The objects [buildSearchWhereClause] can build: [{}], a single field
    filter, or [{ OR: [...] }]. *)
Inductive WhereClause :=
| WhereEmpty
| WhereField (f : FieldFilter)
| WhereOR (fs : list FieldFilter).

Definition getSearchParams (q : Query) (options : SearchOptions)
  : SearchParams :=
  let searchFields := default ["name"] (o_searchFields options) in
  let search := q_search q in
  mkSearchParams
    (JS.orElse (option_map JS.trim search) None)
    searchFields.

Definition buildSearchWhereClause (searchParams : SearchParams)
  (options : SearchOptions) : WhereClause :=
  let search := search searchParams in
  let searchFields := searchFields searchParams in
  let searchMode := default contains (o_searchMode options) in
  match search with
  | None => WhereEmpty
  | Some term =>
      if JS.isEmpty term then WhereEmpty
      else
        match searchFields with
        | [field] => WhereField (mkFieldFilter field searchMode term)
        | _ =>
            WhereOR
              (map (fun field => mkFieldFilter field searchMode term)
                 searchFields)
        end
  end.

Definition handleSearch (q : Query) (options : SearchOptions) : WhereClause :=
  let searchParams := getSearchParams q options in
  buildSearchWhereClause searchParams options.

(** A search term made of white space only (the empty term included). *)
Fixpoint blank (s : string) : bool :=
  match s with
  | EmptyString => true
  | String c s' => JS.isWhiteSpace c && blank s'
  end.

Definition noSearchTerm (q : Query) : bool :=
  match q_search q with
  | None => true
  | Some s => blank s
  end.

Definition withoutSearch (q : Query) : Query :=
  mkQuery (q_page q) (q_limit q) None (q_sortBy q) (q_sortOrder q).

(** The field filters of a where-clause. *)
Definition filtersOf (w : WhereClause) : list FieldFilter :=
  match w with
  | WhereEmpty => []
  | WhereField f => [f]
  | WhereOR fs => fs
  end.

End Search.

(** ** utils/sorting *)

Module Sorting.

Inductive SortOrder := asc | desc.

Record SortOptions := mkSortOptions {
  o_allowedFields : option (list string);
  o_defaultField : option string;
  o_defaultOrder : option SortOrder
}.

Record SortParams := mkSortParams {
  field : string;
  order : SortOrder
}.

Definition getSortParams (q : Query) (options : SortOptions) : SortParams :=
  let allowedFields :=
    default ["created_at"; "updated_at"; "name"] (o_allowedFields options) in
  let defaultField := default "created_at" (o_defaultField options) in
  let defaultOrder := default desc (o_defaultOrder options) in
  let sortBy := q_sortBy q in
  let sortOrder := q_sortOrder q in
  let field :=
    match sortBy with
    | Some s =>
        if negb (JS.isEmpty s) && JS.includes allowedFields s
        then s else defaultField
    | None => defaultField
    end in
  let order :=
    match sortOrder with
    | Some "asc" => asc
    | Some "desc" => desc
    | _ => defaultOrder
    end in
  mkSortParams field order.

(** The object [{ [field]: order }]. *)
Definition buildOrderByClause (sortParams : SortParams)
  : string * SortOrder :=
  (field sortParams, order sortParams).

Definition handleSorting (q : Query) (options : SortOptions)
  : string * SortOrder :=
  let sortParams := getSortParams q options in
  buildOrderByClause sortParams.

(** The configured defaults, as the destructuring of the options reads
    them. *)
Definition configuredField (options : SortOptions) : string :=
  default "created_at" (o_defaultField options).

Definition configuredOrder (options : SortOptions) : SortOrder :=
  default desc (o_defaultOrder options).

Definition configuredAllowList (options : SortOptions) : list string :=
  default ["created_at"; "updated_at"; "name"] (o_allowedFields options).

(** The direction the request asks for, when it is a valid one. *)
Definition requestedOrder (q : Query) : option SortOrder :=
  match q_sortOrder q with
  | Some "asc" => Some asc
  | Some "desc" => Some desc
  | _ => None
  end.

End Sorting.

(** ** The tables the handlers read and write *)

(** A row of [servers]; the primary key [id] is the key of the table. *)
Record Server := mkServer {
  ip : string;
  description : option string;
  max_activity_monitoring : Z;
  cur_activity_monitoring : Z
}.

(** A row of [primary_analytics], with the columns the server handlers
    look at. *)
Record PrimaryAnalytic := mkPrimaryAnalytic {
  pa_name : string;
  pa_status : string;
  servers_id : option Z;
  type_analytic_id : Z
}.

(** A row of [users] with the names of its roles. *)
Record User := mkUser {
  roles : list string
}.

Record Db := mkDb {
  servers : gmap Z Server;
  servers_seq : Z;  (* the next auto-increment id of [servers] *)
  primary_analytics : gmap Z PrimaryAnalytic;
  users : gmap Z User
}.

Definition setServers (d : Db) (t : gmap Z Server) : Db :=
  mkDb t (servers_seq d) (primary_analytics d) (users d).

Definition setCur (s : Server) (cur : Z) : Server :=
  mkServer (ip s) (description s) (max_activity_monitoring s) cur.

(** ** utils/server-selection *)

Module ServerSelection.

Record ServerCapacityInfo := mkServerCapacityInfo {
  id : Z;
  s_ip : string;
  s_description : option string;
  s_max_activity_monitoring : Z;
  s_cur_activity_monitoring : Z;
  availableCapacity : Z;
  utilizationPercentage : Q
}.

Record ServerSelectionOptions := mkServerSelectionOptions {
  requiredCapacity : option Z;
  preferredUtilizationThreshold : option Z;
  excludeServerIds : option (list Z)
}.

Definition defaultOptions : ServerSelectionOptions :=
  mkServerSelectionOptions None None None.

Definition capacityInfo (row : Z * Server) : ServerCapacityInfo :=
  let server := snd row in
  mkServerCapacityInfo (fst row) (ip server) (description server)
    (max_activity_monitoring server) (cur_activity_monitoring server)
    (max_activity_monitoring server - cur_activity_monitoring server)
    (if 0 <? max_activity_monitoring server
     then (inject_Z (cur_activity_monitoring server)
           / inject_Z (max_activity_monitoring server)) * 100
     else 0)%Q.

Definition getServerCapacityInfo (d : Db) : list ServerCapacityInfo :=
  map capacityInfo (map_to_list (servers d)).

(** The comparator of both [sort] calls, on the exact percentages.  The
    code compares their doubles, which are ordered alike on the tables
    of [exactCounters] below. *)
Definition compareServers (a b : ServerCapacityInfo) : Q :=
  if negb (Qeq_bool (utilizationPercentage a) (utilizationPercentage b))
  then (utilizationPercentage a - utilizationPercentage b)%Q
  else inject_Z (availableCapacity b - availableCapacity a).

(** [Array.prototype.sort] with a comparator: a stable sort, here by
    insertion.  An element goes before the first one it does not
    compare greater than. *)
Fixpoint insertSorted {A} (cmp : A -> A -> Q) (x : A) (l : list A) : list A :=
  match l with
  | [] => [x]
  | y :: l' =>
      if Qle_bool (cmp x y) 0 then x :: y :: l'
      else y :: insertSorted cmp x l'
  end.

Definition sort {A} (cmp : A -> A -> Q) (l : list A) : list A :=
  fold_right (insertSorted cmp) [] l.

Definition includes (l : list Z) (x : Z) : bool := existsb (Z.eqb x) l.

Definition selectBestServer (d : Db) (typeAnalyticId : Z)
  (options : ServerSelectionOptions) : option ServerCapacityInfo :=
  let requiredCapacity := default 1 (requiredCapacity options) in
  let excludeServerIds := default [] (excludeServerIds options) in
  let servers := getServerCapacityInfo d in
  let availableServers :=
    List.filter (fun server => negb (includes excludeServerIds (id server)))
      servers in
  let serversWithCapacity :=
    List.filter (fun server => requiredCapacity <=? availableCapacity server)
      availableServers in
  if (length serversWithCapacity =? 0)%nat then None
  else if typeAnalyticId =? 1 then
    let activityMonitoringServers :=
      List.filter (fun server => 0 <? s_max_activity_monitoring server)
        serversWithCapacity in
    if (length activityMonitoringServers =? 0)%nat then None
    else head (sort compareServers activityMonitoringServers)
  else head (sort compareServers serversWithCapacity).

Definition reserveServerCapacity (d : Db) (serverId typeAnalyticId : Z)
  (capacity : option Z) : Db * bool :=
  let capacity := default 1 capacity in
  if typeAnalyticId =? 1 then
    match servers d !! serverId with
    | None => (d, false)
    | Some server =>
        if max_activity_monitoring server
           <? cur_activity_monitoring server + capacity
        then (d, false)
        else
          (setServers d
             (<[serverId :=
                  setCur server (cur_activity_monitoring server + capacity)]>
                (servers d)),
           true)
    end
  else (d, true).

Definition releaseServerCapacity (d : Db) (serverId typeAnalyticId : Z)
  (capacity : option Z) : Db * bool :=
  let capacity := default 1 capacity in
  if typeAnalyticId =? 1 then
    match servers d !! serverId with
    | None => (d, false)
    | Some server =>
        let newCapacity :=
          Z.max 0 (cur_activity_monitoring server - capacity) in
        (setServers d
           (<[serverId := setCur server newCapacity]> (servers d)),
         true)
    end
  else (d, true).

Definition checkServerCapacity (d : Db) (serverId typeAnalyticId : Z)
  (requiredCapacity : option Z) : bool :=
  let requiredCapacity := default 1 requiredCapacity in
  match servers d !! serverId with
  | None => false
  | Some server =>
      if typeAnalyticId =? 1 then
        cur_activity_monitoring server + requiredCapacity
        <=? max_activity_monitoring server
      else true
  end.

(** The words of the specification, for the statements below.  The
    utilization of a server is [current / max], and 0 for a server
    without capacity. *)
Definition utilization (s : ServerCapacityInfo) : Q :=
  if 0 <? s_max_activity_monitoring s
  then inject_Z (s_cur_activity_monitoring s)
       / inject_Z (s_max_activity_monitoring s)
  else 0.

(** A server that survives the filters of [selectBestServer]. *)
Definition eligible (typeAnalyticId : Z) (options : ServerSelectionOptions)
  (s : ServerCapacityInfo) : Prop :=
  ~ In (id s) (default [] (excludeServerIds options))
  /\ default 1 (requiredCapacity options) <= availableCapacity s
  /\ (typeAnalyticId = 1 -> 0 < s_max_activity_monitoring s).

(** The filters the specification names: the excluded ids and the
    required capacity. *)
Definition remaining (options : ServerSelectionOptions)
  (s : ServerCapacityInfo) : Prop :=
  ~ In (id s) (default [] (excludeServerIds options))
  /\ default 1 (requiredCapacity options) <= availableCapacity s.

(** [a] is at least as good a choice as [b]: a lower utilization, or the
    same utilization and no less available capacity. *)
Definition preferred (a b : ServerCapacityInfo) : Prop :=
  (utilization a < utilization b)%Q
  \/ ((utilization a == utilization b)%Q
      /\ availableCapacity b <= availableCapacity a).

(** The order the comparator decides, on the percentages it reads. *)
Definition sortsBefore (a b : ServerCapacityInfo) : Prop :=
  (utilizationPercentage a < utilizationPercentage b)%Q
  \/ ((utilizationPercentage a == utilizationPercentage b)%Q
      /\ availableCapacity b <= availableCapacity a).

(** The counters of the table are non-negative and below [2^25].  The
    code computes [(cur / max) * 100] in double arithmetic, each
    operation rounded to 53 bits; two distinct ratios of integers below
    [2^25] differ by more than [2^-50] of the larger one, which is more
    than twice the two roundings can account for, so in this range the
    code's percentages are equal, or ordered, exactly as the rationals of
    the embedding are.  Beyond it distinct ratios can round to the same
    double and tie. *)
Definition exactCounters (d : Db) : Prop :=
  forall serverId server,
    servers d !! serverId = Some server ->
    0 <= cur_activity_monitoring server < 2 ^ 25
    /\ 0 <= max_activity_monitoring server < 2 ^ 25.

(** Every counter of the table is non-negative. *)
Definition nonNegativeCounters (d : Db) : Prop :=
  forall serverId server,
    servers d !! serverId = Some server ->
    0 <= cur_activity_monitoring server.

(** Every counter of the table lies between 0 and the maximum of its
    server. *)
Definition consistentCounters (d : Db) : Prop :=
  forall serverId server,
    servers d !! serverId = Some server ->
    0 <= cur_activity_monitoring server <= max_activity_monitoring server.

(** The columns of a server row the capacity helpers have no business
    with. *)
Definition fixedColumns (server : Server) : string * option string * Z :=
  (ip server, description server, max_activity_monitoring server).

End ServerSelection.

(** ** Responses and the dispatch of a guarded route *)

(** The JSON envelope a handler or a middleware answers with. *)
Record Response (D : Type) := mkResponse {
  status : Z;
  success : bool;
  message : string;
  code : option string;
  errors : list string;
  data : option D
}.
Arguments mkResponse {D}.
Arguments status {D}.
Arguments success {D}.
Arguments message {D}.
Arguments code {D}.
Arguments errors {D}.
Arguments data {D}.

(** [res.status(s).json({ success: false, message })]. *)
Definition failure {D} (s : Z) (msg : string) : Response D :=
  mkResponse s false msg None [] None.

(** A middleware either answers itself or calls [next()] with the
    request it has prepared. *)
Inductive Outcome (A D : Type) :=
| Respond (r : Response D)
| Next (a : A).
Arguments Respond {A D}.
Arguments Next {A D}.

Record Served (D : Type) := mkServed {
  db_after : Db;
  response : Response D;
  handlerInvoked : bool
}.
Arguments mkServed {D}.
Arguments db_after {D}.
Arguments response {D}.
Arguments handlerInvoked {D}.

(** [router.verb(path, guard, handler)]: the handler runs only when the
    guard calls [next()]. *)
Definition dispatch {A B D} (guard : Db -> A -> Outcome B D)
  (handler : B -> Db -> Db * Response D) (req : A) (d : Db) : Served D :=
  match guard d req with
  | Respond r => mkServed d r false
  | Next req' =>
      let '(d', r) := handler req' d in
      mkServed d' r true
  end.

(** ** features/server: validators and controllers *)

Module ServerFeature.

(** A key of a JSON body: absent, present with a value of a type the
    schema does not accept, or present with a value of the right type. *)
Inductive Field (A : Type) :=
| Omitted
| Malformed
| Given (a : A).
Arguments Omitted {A}.
Arguments Malformed {A}.
Arguments Given {A}.

(** The body of POST /server as the client sends it. *)
Record CreateServerBody := mkCreateServerBody {
  b_ip : Field string;
  b_description : Field (option string);
  b_max_activity_monitoring : Field Z;
  b_cur_activity_monitoring : Field Z
}.

(** [CreateServerInput]: what [createServerSchema.parse] returns. *)
Record CreateServerInput := mkCreateServerInput {
  i_ip : string;
  i_description : option (option string);
  i_max_activity_monitoring : Z;
  i_cur_activity_monitoring : Z
}.

(** The server as the handlers answer it: the row, the included
    analytics and [analytics_count]. *)
Record ServerView := mkServerView {
  v_id : Z;
  v_server : Server;
  v_primary_analytics : list (Z * PrimaryAnalytic);
  analytics_count : Z
}.

Section Handlers.

(** The format check of [z.string().ip(...)]. *)
Variable zodIp : string -> bool.

(** [z.number().int().min(0, ...).default(0)]: the issues of the key, or
    its value. *)
Definition counterSchema (key : string) (f : Field Z) : list string + Z :=
  match f with
  | Omitted => inr 0
  | Malformed => inl [key]
  | Given n => if 0 <=? n then inr n else inl [key]
  end.

Definition ipSchema (f : Field string) : list string + string :=
  match f with
  | Given s => if zodIp s then inr s else inl ["ip"]
  | _ => inl ["ip"]
  end.

Definition descriptionSchema (f : Field (option string))
  : list string + option (option string) :=
  match f with
  | Omitted => inr None
  | Given o => inr (Some o)
  | Malformed => inl ["description"]
  end.

Definition issues {A} (r : list string + A) : list string :=
  match r with inl l => l | inr _ => [] end.

(** [createServerSchema.parse(body)]: the parsed input, or the paths of
    all the issues, in the order of the keys of the schema. *)
Definition createServerSchema (body : CreateServerBody)
  : list string + CreateServerInput :=
  let ip := ipSchema (b_ip body) in
  let description := descriptionSchema (b_description body) in
  let max := counterSchema "max_activity_monitoring"
               (b_max_activity_monitoring body) in
  let cur := counterSchema "cur_activity_monitoring"
               (b_cur_activity_monitoring body) in
  match ip, description, max, cur with
  | inr i, inr de, inr m, inr c => inr (mkCreateServerInput i de m c)
  | _, _, _, _ => inl (issues ip ++ issues description ++ issues max ++ issues cur)%list
  end.

Definition validateCreateServer {D} (body : CreateServerBody)
  : Outcome CreateServerInput D :=
  match createServerSchema body with
  | inr validatedData => Next validatedData
  | inl paths => Respond (mkResponse 400 false "Validation error" None paths None)
  end.

(** [prisma.servers.findUnique({ where: { ip } })]. *)
Definition findUniqueByIp (d : Db) (address : string) : option (Z * Server) :=
  List.find (fun row => String.eqb (ip (snd row)) address)
    (map_to_list (servers d)).

(** The [primary_analytics] relation of a server. *)
Definition analyticsOf (d : Db) (serverId : Z) : list (Z * PrimaryAnalytic) :=
  List.filter
    (fun row =>
       match servers_id (snd row) with
       | Some sid => sid =? serverId
       | None => false
       end)
    (map_to_list (primary_analytics d)).

Definition countAnalytics (d : Db) (serverId : Z) : Z :=
  Z.of_nat (length (analyticsOf d serverId)).

Definition INT_MIN : Z := -2147483648.
Definition INT_MAX : Z := 2147483647.

Definition fitsInt (n : Z) : bool := (INT_MIN <=? n) && (n <=? INT_MAX).

Definition fitsVarchar (s : string) : bool := (String.length s <=? 191)%nat.

(** What the columns of [servers] can hold.  The declaration of the
    table is not among the sources; the migrations that alter it declare
    its counters as INTEGER (32 bits, signed), and a text column of this
    schema is a VARCHAR(191).  A write of anything else is refused by the
    database: the ORM call throws. *)
Definition fitsColumns (row : Server) : bool :=
  fitsVarchar (ip row)
  && match description row with
     | Some text => fitsVarchar text
     | None => true
     end
  && fitsInt (max_activity_monitoring row)
  && fitsInt (cur_activity_monitoring row).

(** The row [prisma.servers.create({ data })] is asked to store. *)
Definition newRow (serverData : CreateServerInput) : Server :=
  mkServer (i_ip serverData)
    (match i_description serverData with Some o => o | None => None end)
    (i_max_activity_monitoring serverData)
    (i_cur_activity_monitoring serverData).

(** [prisma.servers.create({ data })]: the row gets the next id;
    [None] when the call throws. *)
Definition create (d : Db) (serverData : CreateServerInput)
  : option (Db * (Z * Server)) :=
  let id := servers_seq d in
  let row := newRow serverData in
  if fitsColumns row then
    Some (mkDb (<[id := row]> (servers d)) (id + 1)
            (primary_analytics d) (users d),
          (id, row))
  else None.

Definition view (d : Db) (id : Z) (server : Server) : ServerView :=
  mkServerView id server (analyticsOf d id) (countAnalytics d id).

Definition createServer (serverData : CreateServerInput) (d : Db)
  : Db * Response ServerView :=
  match findUniqueByIp d (i_ip serverData) with
  | Some existingServer =>
      (d, failure 409 "Server with this IP address already exists")
  | None =>
      match create d serverData with
      | Some (d', (id, server)) =>
          (d', mkResponse 201 true "Server created successfully" None []
                 (Some (view d' id server)))
      | None => (d, failure 500 "Internal server error")
      end
  end.

(** POST /server behind its validator. *)
Definition postServer (body : CreateServerBody) (d : Db) : Served ServerView :=
  dispatch (fun _ => validateCreateServer) createServer body d.

Definition deleteServer (idParam : string) (d : Db)
  : Db * Response ServerView :=
  match JS.parseInt (Some idParam) with
  | None => (d, failure 500 "Internal server error")
  | Some id =>
      match servers d !! id with
      | None => (d, failure 404 "Server not found")
      | Some existingServer =>
          if 0 <? countAnalytics d id then
            (d, failure 400
                  "Cannot delete server with active primary analytics. Please remove all related analytics first.")
          else
            (setServers d (delete id (servers d)),
             mkResponse 200 true "Server deleted successfully" None [] None)
      end
  end.

(** [prisma.servers.findUnique({ where: { id } })] with the included
    analytics, as GET /server/:id answers it. *)
Definition getServerById (idParam : string) (d : Db)
  : Db * Response ServerView :=
  match JS.parseInt (Some idParam) with
  | None => (d, failure 500 "Internal server error")
  | Some id =>
      match servers d !! id with
      | None => (d, failure 404 "Server not found")
      | Some server =>
          (d, mkResponse 200 true "Server retrieved successfully" None []
                (Some (view d id server)))
      end
  end.

(** The body of PUT /server/:id as the client sends it. *)
Record UpdateServerBody := mkUpdateServerBody {
  ub_ip : Field string;
  ub_description : Field (option string);
  ub_max_activity_monitoring : Field Z;
  ub_cur_activity_monitoring : Field Z
}.

(** [UpdateServerInput]: every key is optional. *)
Record UpdateServerInput := mkUpdateServerInput {
  u_ip : option string;
  u_description : option (option string);
  u_max_activity_monitoring : option Z;
  u_cur_activity_monitoring : option Z
}.

(** [z.number().int().min(0, ...).optional()]. *)
Definition optionalCounterSchema (key : string) (f : Field Z)
  : list string + option Z :=
  match f with
  | Omitted => inr None
  | Malformed => inl [key]
  | Given n => if 0 <=? n then inr (Some n) else inl [key]
  end.

Definition optionalIpSchema (f : Field string) : list string + option string :=
  match f with
  | Omitted => inr None
  | Malformed => inl ["ip"]
  | Given s => if zodIp s then inr (Some s) else inl ["ip"]
  end.

Definition updateServerSchema (body : UpdateServerBody)
  : list string + UpdateServerInput :=
  let ip := optionalIpSchema (ub_ip body) in
  let description := descriptionSchema (ub_description body) in
  let max := optionalCounterSchema "max_activity_monitoring"
               (ub_max_activity_monitoring body) in
  let cur := optionalCounterSchema "cur_activity_monitoring"
               (ub_cur_activity_monitoring body) in
  match ip, description, max, cur with
  | inr i, inr de, inr m, inr c => inr (mkUpdateServerInput i de m c)
  | _, _, _, _ => inl (issues ip ++ issues description ++ issues max ++ issues cur)%list
  end.

Definition validateUpdateServer {D} (body : UpdateServerBody)
  : Outcome UpdateServerInput D :=
  match updateServerSchema body with
  | inr validatedData => Next validatedData
  | inl paths => Respond (mkResponse 400 false "Validation error" None paths None)
  end.

(** [prisma.servers.update({ where: { id }, data })] on a row: a key
    that is [undefined] keeps the column. *)
Definition applyUpdate (existing : Server) (updateData : UpdateServerInput)
  : Server :=
  mkServer
    (default (ip existing) (u_ip updateData))
    (match u_description updateData with
     | Some o => o
     | None => description existing
     end)
    (default (max_activity_monitoring existing)
       (u_max_activity_monitoring updateData))
    (default (cur_activity_monitoring existing)
       (u_cur_activity_monitoring updateData)).

Definition updateServer (idParam : string) (updateData : UpdateServerInput)
  (d : Db) : Db * Response ServerView :=
  match JS.parseInt (Some idParam) with
  | None => (d, failure 500 "Internal server error")
  | Some id =>
      match servers d !! id with
      | None => (d, failure 404 "Server not found")
      | Some existingServer =>
          let duplicateServer :=
            if JS.truthy (u_ip updateData)
               && negb (String.eqb (default "" (u_ip updateData))
                          (ip existingServer))
            then findUniqueByIp d (default "" (u_ip updateData))
            else None in
          match duplicateServer with
          | Some _ =>
              (d, failure 409 "Server with this IP address already exists")
          | None =>
              let server := applyUpdate existingServer updateData in
              if fitsColumns server then
                let d' := setServers d (<[id := server]> (servers d)) in
                (d', mkResponse 200 true "Server updated successfully" None []
                       (Some (view d' id server)))
              else (d, failure 500 "Internal server error")
          end
      end
  end.

(** PUT /server/:id behind its body validator. *)
Definition putServer (idParam : string) (body : UpdateServerBody) (d : Db)
  : Served ServerView :=
  dispatch (fun _ => validateUpdateServer) (updateServer idParam) body d.

(** The query of GET /server: the keys the helpers read and the two
    keys only the validator knows. *)
Record ServerQueryRaw := mkServerQueryRaw {
  rq_query : Query;
  rq_sort_by : option string;
  rq_sort_order : option string
}.

(** [ServerQueryInput]. *)
Record ServerQueryInput := mkServerQueryInput {
  sq_page : Z;
  sq_limit : Z;
  sq_search : option string;
  sq_sort_by : option string;
  sq_sort_order : option Sorting.SortOrder
}.

(** [.transform((val) => (val ? parseInt(val, 10) : d)).refine(ok, ...)];
    a [NaN] fails every comparison of [ok]. *)
Definition numberParamSchema (key : string) (d : Z) (ok : Z -> bool)
  (val : option string) : list string + Z :=
  let parsed :=
    if JS.truthy val then JS.parseIntRadix10 val else Some d in
  match parsed with
  | Some n => if ok n then inr n else inl [key]
  | None => inl [key]
  end.

(** [z.enum(['asc', 'desc']).optional()]. *)
Definition sortOrderSchema (val : option string)
  : list string + option Sorting.SortOrder :=
  match val with
  | None => inr None
  | Some "asc" => inr (Some Sorting.asc)
  | Some "desc" => inr (Some Sorting.desc)
  | Some _ => inl ["sort_order"]
  end.

Definition serverQuerySchema (raw : ServerQueryRaw)
  : list string + ServerQueryInput :=
  let page := numberParamSchema "page" 1 (fun val => 0 <? val)
                (q_page (rq_query raw)) in
  let limit := numberParamSchema "limit" 10
                 (fun val => (0 <? val) && (val <=? 100))
                 (q_limit (rq_query raw)) in
  let sort_order := sortOrderSchema (rq_sort_order raw) in
  match page, limit, sort_order with
  | inr p, inr l, inr o =>
      inr (mkServerQueryInput p l (q_search (rq_query raw)) (rq_sort_by raw) o)
  | _, _, _ => inl (issues page ++ issues limit ++ issues sort_order)%list
  end.

Definition validateServerQuery {D} (raw : ServerQueryRaw)
  : Outcome (ServerQueryRaw * ServerQueryInput) D :=
  match serverQuerySchema raw with
  | inr validatedData => Next (raw, validatedData)
  | inl paths =>
      Respond (mkResponse 400 false "Invalid query parameters" None paths None)
  end.

(** One entry of [servers] in the answer of
    GET /server/check-availability/:typeAnalyticId. *)
Record AvailableServer := mkAvailableServer {
  a_id : Z;
  a_ip : string;
  a_description : option string;
  maxCapacity : Z;
  currentUsage : Z;
  a_availableCapacity : Z;
  totalAnalytics : Z
}.

Inductive Availability :=
| Unsupported (typeAnalyticId : Z) (typeAnalyticName : string)
| Supported (typeAnalyticId : Z) (typeAnalyticName : string)
    (totalServers availableServers totalCapacity totalUsage
     availableCapacity : Z)
    (servers : list AvailableServer).

(** [orderBy: { id: 'asc' }] on the rows of a table. *)
Fixpoint insertById {A} (row : Z * A) (rows : list (Z * A)) : list (Z * A) :=
  match rows with
  | [] => [row]
  | r :: rows' =>
      if fst row <=? fst r then row :: r :: rows'
      else r :: insertById row rows'
  end.

Definition orderById {A} (rows : list (Z * A)) : list (Z * A) :=
  fold_right insertById [] rows.

(** [rows.reduce((sum, row) => sum + f(row), 0)]. *)
Definition sumOf {A} (f : A -> Z) (rows : list A) : Z :=
  fold_left (fun sum row => sum + f row) rows 0.

Definition toAvailableServer (d : Db) (row : Z * Server) : AvailableServer :=
  let server := snd row in
  mkAvailableServer (fst row) (ip server) (description server)
    (max_activity_monitoring server) (cur_activity_monitoring server)
    (max_activity_monitoring server - cur_activity_monitoring server)
    (countAnalytics d (fst row)).

(** [typeAnalytics] is the table [type_analytic], by id, with the name
    of each type. *)
Definition checkTypeAnalyticAvailability (typeAnalytics : gmap Z string)
  (typeAnalyticId : string) (d : Db) : Db * Response Availability :=
  match JS.parseInt (Some typeAnalyticId) with
  | None => (d, failure 500 "Internal server error")
  | Some typeAnalyticIdInt =>
      match typeAnalytics !! typeAnalyticIdInt with
      | None => (d, failure 404 "Type analytic not found")
      | Some typeAnalyticName =>
          if negb (typeAnalyticIdInt =? 1) then
            (d, mkResponse 200 true "Type analytic availability checked"
                  None []
                  (Some (Unsupported typeAnalyticIdInt typeAnalyticName)))
          else
            let servers := orderById (map_to_list (servers d)) in
            let availableServers :=
              map (toAvailableServer d)
                (List.filter
                   (fun server =>
                      cur_activity_monitoring (snd server)
                      <? max_activity_monitoring (snd server))
                   servers) in
            let totalCapacity :=
              sumOf (fun server => max_activity_monitoring (snd server))
                servers in
            let totalUsage :=
              sumOf (fun server => cur_activity_monitoring (snd server))
                servers in
            (d, mkResponse 200 true
                  "Type analytic availability checked successfully" None []
                  (Some (Supported typeAnalyticIdInt typeAnalyticName
                           (Z.of_nat (length servers))
                           (Z.of_nat (length availableServers))
                           totalCapacity totalUsage
                           (totalCapacity - totalUsage)
                           availableServers)))
      end
  end.

(** [\d]: a decimal digit. *)
Definition isDigit (c : ascii) : bool :=
  let n := Z.of_nat (nat_of_ascii c) in
  (48 <=? n) && (n <=? 57).

Fixpoint allDigits (s : string) : bool :=
  match s with
  | EmptyString => true
  | String c s' => isDigit c && allDigits s'
  end.

(** [serverParamSchema]: the id matches [/^\d+$/]. *)
Definition serverParamSchema (id : string) : bool :=
  negb (JS.isEmpty id) && allDigits id.

Definition validateServerParam {D} (id : string) : Outcome string D :=
  if serverParamSchema id then Next id
  else Respond (failure 400 "Invalid server ID").

(** [validateServerExists]: the request goes on with [existingServer]
    attached. *)
Definition validateServerExists {D} (d : Db) (id : string)
  : Outcome (string * Server) D :=
  match JS.parseInt (Some id) with
  | None => Respond (failure 500 "Internal server error")
  | Some n =>
      match servers d !! n with
      | None => Respond (failure 404 "Server not found")
      | Some server => Next (id, server)
      end
  end.

(** The [servers] of an answer of the availability check. *)
Definition listedServers (r : Response Availability) : list AvailableServer :=
  match data r with
  | Some (Supported _ _ _ _ _ _ _ servers) => servers
  | _ => []
  end.

(** The unique index on [ip]. *)
Definition uniqueIps (d : Db) : Prop :=
  forall k1 k2 server1 server2,
    servers d !! k1 = Some server1 ->
    servers d !! k2 = Some server2 ->
    ip server1 = ip server2 -> k1 = k2.

(** The auto-increment counter is above every id in use. *)
Definition freshSeq (d : Db) : Prop :=
  forall k server, servers d !! k = Some server -> k < servers_seq d.

(** The foreign key of [primary_analytics.servers_id]. *)
Definition referencesExist (d : Db) : Prop :=
  forall k analytic serverId,
    primary_analytics d !! k = Some analytic ->
    servers_id analytic = Some serverId ->
    is_Some (servers d !! serverId).

End Handlers.

End ServerFeature.

(** ** middlewares: session cookie and static security tokens *)

Module Middleware.

Record Headers := mkHeaders {
  x_security_token : option string;
  x_api_token : option string;
  authorization : option string;
  x_access_token : option string
}.

Record AuthUser := mkAuthUser {
  u_id : Z;
  u_role : list string
}.

Record SecurityToken := mkSecurityToken {
  st_token : string;
  st_purpose : option string;
  st_verifiedAt : string
}.

(** The parts of an Express request the two middlewares read or set. *)
Record Request := mkRequest {
  cookies_auth_token : option string;
  headers : Headers;
  user : option AuthUser;
  securityToken : option SecurityToken
}.

(** [process.env]. *)
Record Env := mkEnv {
  JWT_SECRET : option string;
  REGISTRATION_TOKENS : option string;
  ADMIN_TOKENS : option string;
  SENSITIVE_TOKENS : option string;
  GENERAL_TOKENS : option string
}.

Record JwtPayload := mkJwtPayload {
  userId : Z;
  email : string
}.

Record StaticTokens := mkStaticTokens {
  t_registration : list string;
  t_admin : list string;
  t_sensitive : list string;
  t_general : list string
}.

(** [v?.split(',').map((t) => t.trim()) || []]. *)
Definition tokenList (v : option string) : list string :=
  match v with
  | Some s => map JS.trim (JS.split "," s)
  | None => []
  end.

Definition getStaticTokens (env : Env) : StaticTokens :=
  mkStaticTokens
    (tokenList (REGISTRATION_TOKENS env))
    (tokenList (ADMIN_TOKENS env))
    (tokenList (SENSITIVE_TOKENS env))
    (tokenList (GENERAL_TOKENS env)).

(** [staticTokens[expectedPurpose] || []]. *)
Definition purposeTokens (staticTokens : StaticTokens) (purpose : string)
  : list string :=
  if String.eqb purpose "registration" then t_registration staticTokens
  else if String.eqb purpose "admin" then t_admin staticTokens
  else if String.eqb purpose "sensitive" then t_sensitive staticTokens
  else if String.eqb purpose "general" then t_general staticTokens
  else [].

Definition verifySecurityToken (env : Env) (token : string)
  (expectedPurpose : option string) : bool :=
  let staticTokens := getStaticTokens env in
  if negb (JS.truthy expectedPurpose) then
    let allTokens :=
      (t_registration staticTokens ++ t_admin staticTokens
       ++ t_sensitive staticTokens ++ t_general staticTokens)%list in
    JS.includes allTokens token
  else
    JS.includes (purposeTokens staticTokens (default "" expectedPurpose)) token.

Section Guards.

Context {D : Type}.

(** [jwt.verify(token, secret)]; [None] when it throws. *)
Variable jwtVerify : string -> string -> option JwtPayload.

(** [new Date().toISOString()] at the time of the request. *)
Variable now : string.

Variable env : Env.

Definition setUser (req : Request) (u : AuthUser) : Request :=
  mkRequest (cookies_auth_token req) (headers req) (Some u) (securityToken req).

Definition setSecurityToken (req : Request) (t : SecurityToken) : Request :=
  mkRequest (cookies_auth_token req) (headers req) (user req) (Some t).

Definition authenticateToken (d : Db) (req : Request) : Outcome Request D :=
  let token := cookies_auth_token req in
  if negb (JS.truthy token) then
    Respond (failure 401 "Access token is required")
  else
    let secret := default "your-secret-key" (JS.orElse (JWT_SECRET env) None) in
    match jwtVerify (default "" token) secret with
    | None => Respond (failure 403 "Invalid token")
    | Some decoded =>
        match users d !! userId decoded with
        | None => Respond (failure 401 "User not found")
        | Some user =>
            Next (setUser req (mkAuthUser (userId decoded) (roles user)))
        end
    end.

(** The token of the first header that carries a non-empty one. *)
Definition headerToken (h : Headers) : option string :=
  JS.orElse
    (JS.orElse
       (JS.orElse (x_security_token h) (x_api_token h))
       (option_map (JS.replace "Bearer " "") (authorization h)))
    (x_access_token h).

Definition requireSecurityToken (purpose : option string)
  (d : Db) (req : Request) : Outcome Request D :=
  let token := headerToken (headers req) in
  if negb (JS.truthy token) then
    Respond (mkResponse 401 false "Security token is required"
               (Some "MISSING_SECURITY_TOKEN") [] None)
  else
    let token := default "" token in
    let isValid := verifySecurityToken env token purpose in
    if negb isValid then
      Respond (mkResponse 403 false "Invalid security token"
                 (Some "INVALID_SECURITY_TOKEN") [] None)
    else
      Next (setSecurityToken req
              (mkSecurityToken (substring 0 8 token ++ "***") purpose now)).

Definition requireRegistrationToken := requireSecurityToken (Some "registration").
Definition requireAdminToken := requireSecurityToken (Some "admin").
Definition requireSensitiveToken := requireSecurityToken (Some "sensitive").
Definition requireGeneralToken := requireSecurityToken (Some "general").

(** Optional authentication: the user is set when the cookie verifies
    and the user exists; the request goes on in every case. *)
Definition optionalAuthenticateToken (d : Db) (req : Request)
  : Outcome Request D :=
  let token := cookies_auth_token req in
  if negb (JS.truthy token) then Next req
  else
    let secret := default "your-secret-key" (JS.orElse (JWT_SECRET env) None) in
    match jwtVerify (default "" token) secret with
    | None => Next req
    | Some decoded =>
        match users d !! userId decoded with
        | Some user =>
            Next (setUser req (mkAuthUser (userId decoded) (roles user)))
        | None => Next req
        end
    end.

Inductive AuthMethod := user_auth | general_token.

(** [FlexibleAuthRequest]: the request with the method that let it in. *)
Record FlexibleAuthRequest := mkFlexibleAuthRequest {
  f_request : Request;
  authMethod : option AuthMethod
}.

(** The first half of [flexibleAuth]: the request with its user when the
    cookie verifies and the user exists, nothing when any step fails. *)
Definition tryUserAuth (d : Db) (req : FlexibleAuthRequest)
  : option FlexibleAuthRequest :=
  let authToken := cookies_auth_token (f_request req) in
  if JS.truthy authToken then
    let secret := default "your-secret-key" (JS.orElse (JWT_SECRET env) None) in
    match jwtVerify (default "" authToken) secret with
    | None => None
    | Some decoded =>
        match users d !! userId decoded with
        | Some user =>
            Some (mkFlexibleAuthRequest
                    (setUser (f_request req)
                       (mkAuthUser (userId decoded) (roles user)))
                    (Some user_auth))
        | None => None
        end
    end
  else None.

(** The second half: the request with its security token when a header
    carries a general token. *)
Definition tryGeneralToken (req : FlexibleAuthRequest)
  : option FlexibleAuthRequest :=
  let securityToken := headerToken (headers (f_request req)) in
  if JS.truthy securityToken then
    let securityToken := default "" securityToken in
    let isValidGeneralToken :=
      verifySecurityToken env securityToken (Some "general") in
    if isValidGeneralToken then
      Some (mkFlexibleAuthRequest
              (setSecurityToken (f_request req)
                 (mkSecurityToken (substring 0 8 securityToken ++ "***")
                    (Some "general") now))
              (Some general_token))
    else None
  else None.

Definition flexibleAuth (d : Db) (req : FlexibleAuthRequest)
  : Outcome FlexibleAuthRequest D :=
  match tryUserAuth d req with
  | Some req' => Next req'
  | None =>
      match tryGeneralToken req with
      | Some req' => Next req'
      | None =>
          Respond
            (mkResponse 401 false
               "Authentication required. Please provide either a valid user session token or a general access token."
               (Some "AUTHENTICATION_REQUIRED") [] None)
      end
  end.

Definition optionalFlexibleAuth (d : Db) (req : FlexibleAuthRequest)
  : Outcome FlexibleAuthRequest D :=
  match tryUserAuth d req with
  | Some req' => Next req'
  | None =>
      match tryGeneralToken req with
      | Some req' => Next req'
      | None => Next req
      end
  end.

End Guards.

(** One entry of [rateLimitMap]. *)
Record RateRecord := mkRateRecord {
  count : Z;
  resetTime : Z
}.

(** [rateLimit(maxRequests, windowMs)] on the shared [rateLimitMap];
    [ip] is [req.ip], [now] is [Date.now()].  A refusal carries
    [retryAfter] as its data. *)
Definition rateLimit (maxRequests windowMs : Z) (ip : option string)
  (now : Z) (rateLimitMap : gmap string RateRecord)
  : gmap string RateRecord * Outcome unit Z :=
  let identifier := default "unknown" (JS.orElse ip None) in
  let record := rateLimitMap !! identifier in
  match record with
  | None =>
      (<[identifier := mkRateRecord 1 (now + windowMs)]> rateLimitMap, Next tt)
  | Some record =>
      if resetTime record <? now then
        (<[identifier := mkRateRecord 1 (now + windowMs)]> rateLimitMap,
         Next tt)
      else if maxRequests <=? count record then
        (rateLimitMap,
         Respond
           (mkResponse 429 false "Too many requests. Please try again later."
              (Some "RATE_LIMITED") []
              (Some (JS.ceilDiv (resetTime record - now) 1000))))
      else
        (<[identifier := mkRateRecord (count record + 1) (resetTime record)]>
           rateLimitMap,
         Next tt)
  end.

(** The requests of one client, one after the other, at the given times:
    the map at the end and the number of requests let through. *)
Fixpoint rateLimitAll (maxRequests windowMs : Z) (ip : option string)
  (times : list Z) (rateLimitMap : gmap string RateRecord)
  : gmap string RateRecord * Z :=
  match times with
  | [] => (rateLimitMap, 0)
  | now :: later =>
      let '(m, outcome) := rateLimit maxRequests windowMs ip now rateLimitMap in
      let '(m', passed) := rateLimitAll maxRequests windowMs ip later m in
      (m', match outcome with Next _ => 1 + passed | Respond _ => passed end)
  end.

End Middleware.

(** ** config/multer: the upload middlewares *)

Module Upload.

(** A file as multer hands it over. *)
Record File := mkFile {
  fieldname : string;
  mimetype : string;
  size : Z
}.

(** [fileFilter]: the error handed to the callback, if any. *)
Definition fileFilter (file : File) : option string :=
  if String.prefix "image/" (mimetype file) then None
  else Some "Only image files are allowed".

Definition acceptableFields : list string :=
  ["faces"; "face_images"; "images"; "files"; "photos"; "face_photos"].

(** The callback of [multipleUpload] in [flexibleUpload]: [err] is the
    error of multer, [files] is [req.files]; the answer of a refusal
    carries [acceptable_fields]. *)
Definition flexibleUpload (err : option string) (files : option (list File))
  : Outcome (option (list File)) (list string) :=
  match err with
  | Some msg =>
      Respond (mkResponse 400 false ("File upload error: " ++ msg) None []
                 (Some acceptableFields))
  | None =>
      match files with
      | Some fs =>
          if (0 <? length fs)%nat then
            let validFiles :=
              List.filter (fun file => JS.includes acceptableFields (fieldname file))
                fs in
            if (length validFiles =? 0)%nat && (0 <? length fs)%nat
            then Next (Some fs)
            else Next (Some validFiles)
          else Next files
      | None => Next files
      end
  end.

(** A file uploaded under one of the acceptable field names. *)
Definition acceptable (file : File) : Prop :=
  In (fieldname file) acceptableFields.

End Upload.

(** * Properties *)

(** ** Pagination *)

Section PaginationFacts.

Import Pagination.

Lemma ceilDiv_bounds (a b : Z) :
  0 < b -> (JS.ceilDiv a b - 1) * b < a <= JS.ceilDiv a b * b.
Proof.
  intros Hb. destruct b as [|b|b]; try lia.
  unfold JS.ceilDiv, Qceiling, Qfloor, Qdiv, Qmult, Qinv, Qopp, inject_Z.
  cbn [Qnum Qden].
  replace (Z.pos (1 * b)) with (Z.pos b) by lia.
  pose proof (Z.div_mod (- (a * 1)) (Z.pos b) ltac:(lia)) as Hdm.
  pose proof (Z.mod_pos_bound (- (a * 1)) (Z.pos b) ltac:(lia)) as Hmod.
  nia.
Qed.

Lemma lt_ceilDiv (p a b : Z) :
  0 < b -> (p <? JS.ceilDiv a b) = true <-> p * b < a.
Proof.
  intros Hb. pose proof (ceilDiv_bounds a b Hb) as Hc.
  rewrite Z.ltb_lt. split; intros H; nia.
Qed.

Lemma getPaginationParams_bounds (q : Query) (options : PaginationOptions) :
  let params := getPaginationParams q options in
  1 <= page params /\ 1 <= limit params
  /\ limit params <= Z.max 1 (default 100 (maxLimit options))
  /\ skip params = (page params - 1) * limit params.
Proof.
  unfold getPaginationParams; cbn. repeat split; lia.
Qed.

Lemma findMany_length {T} (rows : list T) (skip take : Z) :
  0 <= take -> Z.of_nat (length (findMany rows skip take)) <= take.
Proof.
  intros Ht. unfold findMany.
  rewrite length_firstn. lia.
Qed.

(** C1, as stated, fails for the page and limit of the request itself:
    a limit above the maximal limit is clamped.  With a maximal limit of
    50, [limit=80] over 60 rows is served with [take = 50]: 50 rows come
    back, [totalPages] is 2 and [hasNext] is true, where a limit of 80
    would give one page and no successor. *)
Lemma handlePagination_request_limit_counterexample :
  let q := mkQuery (Some "1") (Some "80") None None None in
  let options := mkPaginationOptions (Some 50) None in
  let r := listRows (seq 0 60) q options in
  JS.parseInt (q_page q) = Some 1
  /\ JS.parseInt (q_limit q) = Some 80
  /\ length (data r) = 50%nat
  /\ m_limit (pagination r) = 50
  /\ m_totalPages (pagination r) = 2
  /\ JS.ceilDiv 60 80 = 1
  /\ m_hasNext (pagination r) = true
  /\ ~ 1 * 80 < 60.
Proof. vm_compute. repeat split. intros H. discriminate H. Qed.

(** C1, amended. The page and the limit that count are the effective
    ones: [p = max(1, P)], where [P] is what [parseInt] reads from the
    [page] parameter (1 when it is absent, does not parse or is 0), and
    [l = max(1, min(L, maxLimit))], where [L] is what it reads from the
    [limit] parameter (the default limit in the same cases).  They are
    the page and limit of the request itself whenever its page is at
    least 1 and its limit lies between 1 and the maximal limit.  As long
    as [p * l] and the total stay below [2^53], where the arithmetic of
    the code is exact, the data function is called with
    [skip = (p - 1) * l] and [take = l], so at most [l] rows come back;
    the metadata carries [p], [l] and the total, [totalPages] is the
    ceiling of [total / l] (the least [n] with [total <= n * l]),
    [hasNext] holds iff [p * l < total] and [hasPrev] iff [p > 1]. *)
Theorem handlePagination_effective :
  forall (T : Type) (q : Query) (options : PaginationOptions)
         (countFn : unit -> Z) (dataFn : PaginationParams -> list T)
         (rows : list T),
    let maxL := default 100 (maxLimit options) in
    let P := JS.numOr (JS.parseInt (q_page q)) 1 in
    let L := JS.numOr (JS.parseInt (q_limit q))
               (default 10 (defaultLimit options)) in
    let p := Z.max 1 P in
    let l := Z.max 1 (Z.min L maxL) in
    let total := countFn tt in
    p * l < JS.MAX_EXACT ->
    0 <= total < JS.MAX_EXACT ->
    let r := handlePagination q countFn dataFn options in
    let meta := pagination r in
    (forall P0, JS.parseInt (q_page q) = Some P0 -> 1 <= P0 -> p = P0)
    /\ (forall L0, JS.parseInt (q_limit q) = Some L0 ->
                   1 <= L0 <= maxL -> l = L0)
    /\ data r = dataFn (mkPaginationParams p l ((p - 1) * l))
    /\ data (listRows rows q options) = findMany rows ((p - 1) * l) l
    /\ Z.of_nat (length (data (listRows rows q options))) <= l
    /\ m_page meta = p /\ m_limit meta = l /\ m_total meta = total
    /\ (m_totalPages meta - 1) * l < total <= m_totalPages meta * l
    /\ (m_hasNext meta = true <-> p * l < total)
    /\ (m_hasPrev meta = true <-> p > 1).
Proof.
  intros T q options countFn dataFn rows maxL P L p l total Hexact Htotal
    r meta.
  assert (Hparams : getPaginationParams q options
                    = mkPaginationParams p l ((p - 1) * l)) by reflexivity.
  assert (Hpos : 0 < l) by (subst l; lia).
  split; [|split].
  - intros P0 HP0 Hge. subst p P. rewrite HP0. cbn.
    destruct (Z.eqb_spec P0 0); lia.
  - intros L0 HL0 Hrange. subst l L. rewrite HL0. cbn.
    destruct (Z.eqb_spec L0 0); lia.
  - subst r meta. unfold listRows, handlePagination, createPaginatedResponse,
      createPaginationMeta.
    rewrite Hparams. cbn [data pagination page limit skip m_page m_limit
                            m_total m_totalPages m_hasNext m_hasPrev].
    fold total.
    split; [reflexivity|]. split; [reflexivity|].
    split; [apply findMany_length; lia|].
    split; [reflexivity|]. split; [reflexivity|]. split; [reflexivity|].
    split; [apply (ceilDiv_bounds total l Hpos)|].
    split; [apply (lt_ceilDiv p total l Hpos)|].
    rewrite Z.ltb_lt. lia.
Qed.

Lemma handlePagination_effective_witness :
  let q := mkQuery (Some "2") (Some "5") None None None in
  let r := handlePagination q (count (seq 0 12))
             (fun params => findMany (seq 0 12) (skip params) (limit params))
             noOptions in
  data r = findMany (seq 0 12) 5 5
  /\ m_page (pagination r) = 2
  /\ m_limit (pagination r) = 5
  /\ m_totalPages (pagination r) = 3
  /\ m_hasNext (pagination r) = true
  /\ m_hasPrev (pagination r) = true.
Proof.
  intros q r.
  destruct (handlePagination_effective nat q noOptions (count (seq 0 12))
              (fun params => findMany (seq 0 12) (skip params) (limit params))
              (seq 0 12))
    as (Hp & Hl & Hdata & _ & _ & Hpage & Hlimit & _ & _ & Hnext & Hprev).
  - vm_compute. reflexivity.
  - vm_compute. split; [discriminate | reflexivity].
  - split; [exact Hdata|]. split; [exact Hpage|]. split; [exact Hlimit|].
    split; [reflexivity|].
    split; [apply Hnext; vm_compute; reflexivity | apply Hprev; reflexivity].
Defined.

(** The scenario of the specification: page 2 of 12 rows, 5 per page. *)
Example pagination_scenario :
  let r := listRows (seq 0 12) (mkQuery (Some "2") (Some "5") None None None)
             noOptions in
  pagination r = mkPaginationMeta 2 5 12 3 true true
  /\ length (data r) = 5%nat.
Proof. vm_compute. split; reflexivity. Qed.

End PaginationFacts.

(** ** Search *)

Section SearchFacts.

Import Search.

Lemma trimStart_blank (s : string) : blank s = true -> JS.trimStart s = "".
Proof.
  induction s as [|c s IH]; cbn; [reflexivity|].
  intros H. apply andb_prop in H as [Hc Hs].
  rewrite Hc. auto.
Qed.

Lemma trim_blank (s : string) : blank s = true -> JS.trim s = "".
Proof.
  intros H. unfold JS.trim. rewrite trimStart_blank by assumption. reflexivity.
Qed.

Lemma trimStart_head (s : string) :
  match JS.trimStart s with
  | EmptyString => blank s = true
  | String c _ => JS.isWhiteSpace c = false
  end.
Proof.
  induction s as [|c s IH]; cbn; [reflexivity|].
  destruct (JS.isWhiteSpace c) eqn:Hc; cbn; [exact IH | exact Hc].
Qed.

Lemma trim_empty_blank (s : string) : JS.trim s = "" -> blank s = true.
Proof.
  unfold JS.trim. pose proof (trimStart_head s) as H.
  destruct (JS.trimStart s) as [|c t]; [auto|].
  cbn. rewrite H. cbn. discriminate.
Qed.

Lemma getSearchParams_blank (q : Query) (options : SearchOptions) :
  noSearchTerm q = true -> search (getSearchParams q options) = None.
Proof.
  unfold noSearchTerm, getSearchParams. cbn.
  destruct (q_search q) as [s|]; [|reflexivity].
  intros H. cbn. rewrite trim_blank by assumption. reflexivity.
Qed.

(** C8. When the [search] parameter is absent, empty or made of white
    space only, [handleSearch] returns the empty where-clause, the same
    clause as for the request without any search term, so any query
    built from it selects the same rows. *)
Theorem handleSearch_blank :
  forall (q : Query) (options : SearchOptions),
    noSearchTerm q = true ->
    handleSearch q options = WhereEmpty
    /\ handleSearch q options = handleSearch (withoutSearch q) options
    /\ forall (Row : Type) (findMany : WhereClause -> list Row),
         findMany (handleSearch q options)
         = findMany (handleSearch (withoutSearch q) options).
Proof.
  intros q options H.
  assert (He : handleSearch q options = WhereEmpty).
  { unfold handleSearch, buildSearchWhereClause.
    rewrite getSearchParams_blank by assumption. reflexivity. }
  assert (Hn : handleSearch (withoutSearch q) options = WhereEmpty)
    by reflexivity.
  repeat split.
  - exact He.
  - congruence.
  - intros Row findMany. congruence.
Qed.

Lemma handleSearch_blank_witness :
  let q := mkQuery (Some "1") None (Some "   ") None None in
  let options := mkSearchOptions (Some ["ip"; "description"]) (Some contains) in
  noSearchTerm q = true
  /\ handleSearch q options = WhereEmpty
  /\ handleSearch q options = handleSearch (withoutSearch q) options
  /\ forall (Row : Type) (findMany : WhereClause -> list Row),
       findMany (handleSearch q options)
       = findMany (handleSearch (withoutSearch q) options).
Proof.
  split; [reflexivity|].
  apply (handleSearch_blank
           (mkQuery (Some "1") None (Some "   ") None None)
           (mkSearchOptions (Some ["ip"; "description"]) (Some contains))).
  reflexivity.
Defined.

(** A term with a visible character does filter: the clause is empty in
    the cases of C8 only. *)
Lemma handleSearch_filters (q : Query) (options : SearchOptions) :
  handleSearch q options = WhereEmpty -> noSearchTerm q = true.
Proof.
  unfold handleSearch, buildSearchWhereClause, getSearchParams, noSearchTerm.
  cbn. destruct (q_search q) as [s|]; [|reflexivity].
  cbn. intros H. apply trim_empty_blank.
  destruct (JS.trim s) as [|c t] eqn:Ht; [reflexivity|].
  cbn in H. destruct (default ["name"] (o_searchFields options)) as [|f [|g fs]];
    discriminate.
Qed.

End SearchFacts.

(** ** Sorting *)

Section SortingFacts.

Import Sorting.

(** C7, as stated, fails: a [sortBy] outside the allow-list together
    with a valid [sortOrder] gives the default field in the requested
    order, not in the configured default order. *)
Lemma handleSorting_default_order_counterexample :
  let q := mkQuery None None None (Some "password") (Some "asc") in
  let options :=
    mkSortOptions (Some ["created_at"; "ip"]) (Some "created_at") (Some desc) in
  JS.includes (configuredAllowList options) "password" = false
  /\ handleSorting q options
     <> (configuredField options, configuredOrder options).
Proof. cbn. split; [reflexivity | discriminate]. Qed.

(** C7, amended. When [sortBy] is absent or outside the allow-list,
    [handleSorting] orders by the configured default field; when it is a
    non-empty member of the allow-list, by the requested field.  The
    direction is chosen on its own: the requested [sortOrder] when it is
    "asc" or "desc", the configured default order otherwise. *)
Theorem handleSorting_field_and_order :
  forall (q : Query) (options : SortOptions),
    let allowed := configuredAllowList options in
    ((q_sortBy q = None
      \/ exists s, q_sortBy q = Some s /\ JS.includes allowed s = false) ->
     fst (handleSorting q options) = configuredField options)
    /\ (forall s, q_sortBy q = Some s -> s <> "" ->
                  JS.includes allowed s = true ->
                  fst (handleSorting q options) = s)
    /\ snd (handleSorting q options)
       = default (configuredOrder options) (requestedOrder q).
Proof.
  intros q options allowed. unfold handleSorting, buildOrderByClause,
    getSortParams, configuredField, configuredOrder, requestedOrder.
  cbn. fold (configuredAllowList options). fold allowed.
  repeat split.
  - intros [H | (s & H & Hs)]; rewrite H; [reflexivity|].
    rewrite Hs, andb_false_r. reflexivity.
  - intros s H Hne Hs. rewrite H, Hs.
    destruct s; [congruence | reflexivity].
  - destruct (q_sortOrder q) as [o|]; [|reflexivity].
    repeat (destruct o as [|[[] [] [] [] [] [] [] []] o]; try reflexivity).
Qed.

Lemma handleSorting_field_and_order_witness :
  let q := mkQuery None None None (Some "ip") (Some "asc") in
  let options :=
    mkSortOptions (Some ["created_at"; "ip"]) (Some "created_at") (Some desc) in
  handleSorting q options = ("ip", asc).
Proof.
  intros q options.
  destruct (handleSorting_field_and_order q options) as (_ & Hf & Ho).
  specialize (Hf "ip" eq_refl ltac:(discriminate) eq_refl).
  rewrite (surjective_pairing (handleSorting q options)), Hf, Ho.
  reflexivity.
Defined.

End SortingFacts.

(** ** Server selection and capacity counters *)

Section SortFacts.

Import ServerSelection.

Context {A : Type}.
Variable cmp : A -> A -> Q.

Let le (x y : A) : Prop := Qle_bool (cmp x y) 0 = true.

Hypothesis le_total : forall x y, le x y \/ le y x.
Hypothesis le_trans : forall x y z, le x y -> le y z -> le x z.

Lemma insertSorted_In (x : A) (l : list A) (z : A) :
  In z (insertSorted cmp x l) <-> z = x \/ In z l.
Proof.
  induction l as [|y l IH]; cbn.
  - intuition auto.
  - destruct (Qle_bool (cmp x y) 0); cbn; rewrite ?IH; intuition auto.
Qed.

Lemma sort_cons (x : A) (l : list A) :
  sort cmp (x :: l) = insertSorted cmp x (sort cmp l).
Proof. reflexivity. Qed.

Lemma sort_In (l : list A) (z : A) : In z (sort cmp l) <-> In z l.
Proof.
  induction l as [|x l IH]; [reflexivity|].
  rewrite sort_cons, insertSorted_In, IH. cbn. intuition auto.
Qed.

Lemma insertSorted_head (x : A) (l : list A) :
  (forall m, head l = Some m -> forall z, In z l -> le m z) ->
  exists m, head (insertSorted cmp x l) = Some m
            /\ forall z, z = x \/ In z l -> le m z.
Proof.
  intros Hl. destruct l as [|y l]; cbn.
  - exists x. split; [reflexivity|].
    intros z [-> | []]. destruct (le_total x x); assumption.
  - specialize (Hl y eq_refl).
    destruct (Qle_bool (cmp x y) 0) eqn:Hxy; cbn.
    + exists x. split; [reflexivity|].
      intros z [-> | Hz].
      * destruct (le_total x x); assumption.
      * apply le_trans with y; [exact Hxy | apply Hl; exact Hz].
    + exists y. split; [reflexivity|].
      intros z [-> | Hz].
      * destruct (le_total x y) as [H | H]; [|exact H].
        unfold le in H. congruence.
      * apply Hl; exact Hz.
Qed.

Lemma sort_head_least (l : list A) :
  forall m, head (sort cmp l) = Some m -> forall z, In z l -> le m z.
Proof.
  induction l as [|x l IH]; [discriminate|].
  intros m Hm z Hz. rewrite sort_cons in Hm.
  destruct (insertSorted_head x (sort cmp l)) as (m' & Hm' & Hle).
  - intros m0 H0 z0 Hz0. apply (IH m0 H0). apply sort_In. exact Hz0.
  - rewrite Hm' in Hm. injection Hm as <-. apply Hle.
    destruct Hz as [-> | Hz]; [left; reflexivity | right].
    apply sort_In. exact Hz.
Qed.

Lemma sort_head_In (l : list A) (m : A) :
  head (sort cmp l) = Some m -> In m l.
Proof.
  intros H. apply sort_In. destruct (sort cmp l); [discriminate|].
  injection H as ->. left. reflexivity.
Qed.

Lemma sort_head_None (l : list A) : head (sort cmp l) = None -> l = [].
Proof.
  destruct l as [|x l]; [reflexivity|]. rewrite sort_cons.
  destruct (sort cmp l) as [|y t]; cbn; [discriminate|].
  destruct (Qle_bool (cmp x y) 0); discriminate.
Qed.

End SortFacts.

Section SelectionFacts.

Import ServerSelection.

Lemma inject_Z_nonpos (z : Z) : (inject_Z z <= 0)%Q <-> z <= 0.
Proof. unfold Qle, inject_Z; cbn. lia. Qed.

Lemma compareServers_le (a b : ServerCapacityInfo) :
  Qle_bool (compareServers a b) 0 = true <-> sortsBefore a b.
Proof.
  unfold compareServers, sortsBefore. rewrite Qle_bool_iff.
  destruct (Qeq_bool (utilizationPercentage a) (utilizationPercentage b)) eqn:E;
    cbn.
  - apply Qeq_bool_iff in E. rewrite inject_Z_nonpos. split.
    + intros H. right. split; [exact E | lia].
    + intros [H | [_ H]]; [lra | lia].
  - apply Qeq_bool_neq in E. split.
    + intros H. left. apply Qle_lteq in H as [H | H]; lra.
    + intros [H | [H _]]; [lra | contradiction].
Qed.

Lemma compareServers_total (a b : ServerCapacityInfo) :
  Qle_bool (compareServers a b) 0 = true
  \/ Qle_bool (compareServers b a) 0 = true.
Proof.
  rewrite !compareServers_le. unfold sortsBefore.
  destruct (Q_dec (utilizationPercentage a) (utilizationPercentage b))
    as [[H | H] | H].
  - left. left. exact H.
  - right. left. exact H.
  - destruct (Z.le_ge_cases (availableCapacity a) (availableCapacity b)).
    + right. right. split; [symmetry; exact H | assumption].
    + left. right. split; assumption.
Qed.

Lemma compareServers_trans (a b c : ServerCapacityInfo) :
  Qle_bool (compareServers a b) 0 = true ->
  Qle_bool (compareServers b c) 0 = true ->
  Qle_bool (compareServers a c) 0 = true.
Proof.
  rewrite !compareServers_le. unfold sortsBefore.
  intros [H1 | [H1 H1']] [H2 | [H2 H2']].
  - left. lra.
  - left. lra.
  - left. lra.
  - right. split; [lra | lia].
Qed.

Lemma capacityInfo_utilization (row : Z * Server) :
  (utilizationPercentage (capacityInfo row)
   == utilization (capacityInfo row) * 100)%Q.
Proof.
  unfold capacityInfo, utilization; cbn.
  destruct (0 <? max_activity_monitoring (snd row)); lra.
Qed.

Lemma getServerCapacityInfo_In (d : Db) (s : ServerCapacityInfo) :
  In s (getServerCapacityInfo d) <->
  exists server, servers d !! id s = Some server
                 /\ s = capacityInfo (id s, server).
Proof.
  unfold getServerCapacityInfo. rewrite in_map_iff. split.
  - intros ([k server] & <- & Hin). exists server.
    apply list_elem_of_In, elem_of_map_to_list in Hin. split; [exact Hin | reflexivity].
  - intros (server & Hs & Heq). exists (id s, server). split; [auto|].
    apply list_elem_of_In, elem_of_map_to_list. exact Hs.
Qed.

Lemma sortsBefore_preferred (d : Db) (a b : ServerCapacityInfo) :
  In a (getServerCapacityInfo d) -> In b (getServerCapacityInfo d) ->
  sortsBefore a b -> preferred a b.
Proof.
  intros Ha Hb.
  apply getServerCapacityInfo_In in Ha as (ra & _ & Ha).
  apply getServerCapacityInfo_In in Hb as (rb & _ & Hb).
  pose proof (capacityInfo_utilization (id a, ra)) as Ua.
  pose proof (capacityInfo_utilization (id b, rb)) as Ub.
  rewrite <- Ha in Ua. rewrite <- Hb in Ub.
  unfold sortsBefore, preferred. rewrite Ua, Ub.
  intros [H | [H H']]; [left; lra | right; split; [lra | exact H']].
Qed.

Lemma includes_In (l : list Z) (x : Z) :
  includes l x = true <-> In x l.
Proof.
  unfold includes. rewrite existsb_exists. split.
  - intros (y & Hy & Heq). apply Z.eqb_eq in Heq. subst. exact Hy.
  - intros H. exists x. split; [exact H | apply Z.eqb_refl].
Qed.

Lemma length_eqb_0 {A} (l : list A) : (length l =? 0)%nat = true <-> l = [].
Proof.
  destruct l; cbn; split; intros H; try reflexivity; discriminate.
Qed.

End SelectionFacts.

Section SelectBestServerFacts.

Import ServerSelection.

Variable d : Db.
Variable options : ServerSelectionOptions.

Let excluded := default [] (excludeServerIds options).
Let required := default 1 (requiredCapacity options).

Let serversWithCapacity :=
  List.filter (fun server => required <=? availableCapacity server)
    (List.filter (fun server => negb (includes excluded (id server)))
       (getServerCapacityInfo d)).

Lemma serversWithCapacity_In (s : ServerCapacityInfo) :
  In s serversWithCapacity <->
  In s (getServerCapacityInfo d) /\ remaining options s.
Proof.
  unfold serversWithCapacity, remaining. rewrite !filter_In.
  rewrite negb_true_iff, Z.leb_le. fold excluded required.
  rewrite <- includes_In.
  destruct (includes excluded (id s)); intuition congruence.
Qed.

Lemma activityMonitoringServers_In (s : ServerCapacityInfo) :
  In s (List.filter (fun server => 0 <? s_max_activity_monitoring server)
          serversWithCapacity) <->
  In s (getServerCapacityInfo d) /\ eligible 1 options s.
Proof.
  rewrite filter_In, serversWithCapacity_In, Z.ltb_lt.
  unfold remaining, eligible. intuition auto.
Qed.

Lemma eligible_other_type (typeAnalyticId : Z) (s : ServerCapacityInfo) :
  typeAnalyticId <> 1 ->
  eligible typeAnalyticId options s <-> remaining options s.
Proof.
  unfold eligible, remaining. intuition auto.
Qed.

(** The result of [selectBestServer] is the head of the sorted list of
    the eligible servers. *)
Lemma selectBestServer_head (typeAnalyticId : Z) :
  exists candidates,
    selectBestServer d typeAnalyticId options
    = head (sort compareServers candidates)
    /\ forall s, In s candidates <->
                 In s (getServerCapacityInfo d)
                 /\ eligible typeAnalyticId options s.
Proof.
  unfold selectBestServer. fold excluded required. fold serversWithCapacity.
  destruct (length serversWithCapacity =? 0)%nat eqn:E0.
  - apply length_eqb_0 in E0. exists [].
    split; [reflexivity|]. intros s. split; [intros []|].
    intros [Hin (He & Hr & _)].
    assert (H : In s serversWithCapacity)
      by (apply serversWithCapacity_In; split; [exact Hin | split; assumption]).
    rewrite E0 in H. exact H.
  - destruct (typeAnalyticId =? 1) eqn:Et.
    + apply Z.eqb_eq in Et. subst typeAnalyticId.
      set (ams := List.filter _ serversWithCapacity).
      exists ams. split; [|apply activityMonitoringServers_In].
      destruct (length ams =? 0)%nat eqn:E1; [|reflexivity].
      apply length_eqb_0 in E1. rewrite E1. reflexivity.
    + apply Z.eqb_neq in Et. exists serversWithCapacity.
      split; [reflexivity|]. intros s.
      rewrite serversWithCapacity_In, eligible_other_type by assumption.
      reflexivity.
Qed.

End SelectBestServerFacts.

Section CapacityFacts.

Import ServerSelection.

(** C2, as stated, fails for type 1: a server without any capacity
    ([max_activity_monitoring = 0]) passes the two filters of the claim
    when no capacity is required, and is still not returned. *)
Lemma selectBestServer_filters_counterexample :
  let d := mkDb {[ 1 := mkServer "10.0.0.5" None 0 0 ]} 2 ∅ ∅ in
  let options := mkServerSelectionOptions (Some 0) None None in
  (exists s, In s (getServerCapacityInfo d) /\ remaining options s)
  /\ selectBestServer d 1 options = None.
Proof.
  split; [|reflexivity].
  eexists. split; [left; reflexivity|].
  split; cbn; [tauto | lia].
Qed.

(** C2, amended. [selectBestServer] drops the servers whose id is
    excluded, those whose available capacity ([max - cur]) is below the
    required capacity (1 by default) and, for type 1, those whose
    [max_activity_monitoring] is not positive.  It returns null exactly
    when no server remains, and a remaining server otherwise.  When the
    counters of the table are non-negative and below [2^25], where the
    percentages the code computes in doubles are ordered as the exact
    ratios, the server returned has the lowest utilization ([cur / max],
    0 for a server without capacity) among the remaining ones and, among
    those of lowest utilization, the highest available capacity. *)
Theorem selectBestServer_least_utilized :
  forall (d : Db) (typeAnalyticId : Z) (options : ServerSelectionOptions),
    match selectBestServer d typeAnalyticId options with
    | None =>
        forall s, In s (getServerCapacityInfo d) ->
                  ~ eligible typeAnalyticId options s
    | Some best =>
        (exists server,
            servers d !! id best = Some server
            /\ best = capacityInfo (id best, server))
        /\ availableCapacity best
           = s_max_activity_monitoring best - s_cur_activity_monitoring best
        /\ eligible typeAnalyticId options best
        /\ (exactCounters d ->
            forall s, In s (getServerCapacityInfo d) ->
                      eligible typeAnalyticId options s ->
                      (utilization best <= utilization s)%Q
                      /\ ((utilization best == utilization s)%Q ->
                          availableCapacity s <= availableCapacity best))
    end.
Proof.
  intros d typeAnalyticId options.
  destruct (selectBestServer_head d options typeAnalyticId)
    as (candidates & -> & Hc).
  destruct (head (sort compareServers candidates)) as [best|] eqn:Hh.
  - assert (Hb : In best candidates) by (eapply sort_head_In; exact Hh).
    apply Hc in Hb as [Hin He].
    pose proof Hin as Hrow. apply getServerCapacityInfo_In in Hrow.
    split; [exact Hrow|].
    split; [destruct Hrow as (server & _ & ->); reflexivity|].
    split; [exact He|].
    intros _ s Hs_in Hs_el.
    assert (Hs : In s candidates) by (apply Hc; split; assumption).
    pose proof (sort_head_least compareServers compareServers_total
                  compareServers_trans candidates best Hh s Hs) as Hle.
    apply compareServers_le in Hle.
    apply (sortsBefore_preferred d) in Hle; try assumption.
    destruct Hle as [Hlt | [Heq Hav]]; split; intros; try lra; try lia.
  - apply sort_head_None in Hh. subst candidates.
    intros s Hin He. apply (Hc s). split; assumption.
Qed.

(** Three servers at 50, 25 and 25 percent: the two at 25 percent tie,
    and the one with more room is returned. *)
Lemma selectBestServer_least_utilized_witness :
  let d := mkDb (<[ 1 := mkServer "10.0.0.5" None 4 2 ]>
                   (<[ 2 := mkServer "10.0.0.6" None 4 1 ]>
                      {[ 3 := mkServer "10.0.0.7" None 8 2 ]})) 4 ∅ ∅ in
  exists best,
    selectBestServer d 1 defaultOptions = Some best
    /\ id best = 3
    /\ forall s, In s (getServerCapacityInfo d) ->
                 eligible 1 defaultOptions s ->
                 (utilization best <= utilization s)%Q
                 /\ ((utilization best == utilization s)%Q ->
                     availableCapacity s <= availableCapacity best).
Proof.
  intros d.
  pose proof (selectBestServer_least_utilized d 1 defaultOptions) as H.
  destruct (selectBestServer d 1 defaultOptions) as [best|] eqn:Hsel;
    [|vm_compute in Hsel; discriminate].
  exists best. split; [reflexivity|].
  split; [vm_compute in Hsel; injection Hsel as <-; reflexivity|].
  destruct H as (_ & _ & _ & Hleast). apply Hleast.
  intros k server Hrow. subst d. cbn [servers] in Hrow.
  destruct (decide (k = 1)) as [-> | H1].
  { rewrite lookup_insert_eq in Hrow. injection Hrow as <-. cbn. lia. }
  rewrite lookup_insert_ne in Hrow by congruence.
  destruct (decide (k = 2)) as [-> | H2].
  { rewrite lookup_insert_eq in Hrow. injection Hrow as <-. cbn. lia. }
  rewrite lookup_insert_ne in Hrow by congruence.
  apply lookup_singleton_Some in Hrow as [<- <-]. cbn. lia.
Defined.

(** With the default required capacity, or any positive one, and
    counters that are not negative, the third filter removes nothing:
    there the filters of C2 are the only ones. *)
Lemma eligible_positive_capacity (d : Db) (typeAnalyticId : Z)
  (options : ServerSelectionOptions) (s : ServerCapacityInfo) :
  nonNegativeCounters d ->
  1 <= default 1 (requiredCapacity options) ->
  In s (getServerCapacityInfo d) ->
  eligible typeAnalyticId options s <-> remaining options s.
Proof.
  intros Hnn Hreq Hin. unfold eligible, remaining.
  apply getServerCapacityInfo_In in Hin as (server & Hrow & Hs).
  specialize (Hnn _ _ Hrow).
  split; [tauto|]. intros [He Hr]. repeat split; try assumption.
  intros _. rewrite Hs in Hr |- *. cbn in *. lia.
Qed.

End CapacityFacts.

Section CounterFacts.

Import ServerSelection.



Lemma releaseServerCapacity_writes (d : Db) (serverId : Z) (server : Server)
  (capacity : option Z) :
  servers d !! serverId = Some server ->
  releaseServerCapacity d serverId 1 capacity
  = (setServers d
       (<[serverId :=
            setCur server
              (Z.max 0 (cur_activity_monitoring server - default 1 capacity))]>
          (servers d)),
     true).
Proof.
  intros Hrow. unfold releaseServerCapacity. cbn. rewrite Hrow. reflexivity.
Qed.

Lemma insert_nonNegative (d : Db) (serverId : Z) (server : Server) :
  0 <= cur_activity_monitoring server ->
  nonNegativeCounters d ->
  nonNegativeCounters (setServers d (<[serverId := server]> (servers d))).
Proof.
  intros Hcur Hnn k row. cbn.
  destruct (decide (k = serverId)) as [-> | Hne].
  - rewrite lookup_insert_eq. intros [= <-]. exact Hcur.
  - rewrite lookup_insert_ne by congruence. apply Hnn.
Qed.



(** A release for a server that does not exist, or for another type,
    writes nothing: the counters stay non-negative in every case. *)
Lemma releaseServerCapacity_preserves_nonNegative (d : Db)
  (serverId typeAnalyticId : Z) (capacity : option Z) :
  nonNegativeCounters d ->
  nonNegativeCounters
    (fst (releaseServerCapacity d serverId typeAnalyticId capacity)).
Proof.
  intros Hnn. unfold releaseServerCapacity.
  destruct (typeAnalyticId =? 1) eqn:Et; [|exact Hnn].
  destruct (servers d !! serverId) as [server|] eqn:Hrow; [|exact Hnn].
  cbn. apply insert_nonNegative; [cbn; lia | exact Hnn].
Qed.

End CounterFacts.

Section OtherTypesFacts.

Import ServerSelection.

(** C9, as stated, fails for server selection: for a type other than 1
    the only server of the table, not excluded but full, passes
    [checkServerCapacity] and is still not selected, because its
    available capacity is below the required one. *)
Lemma selectBestServer_other_type_counterexample :
  let d := mkDb {[ 1 := mkServer "10.0.0.5" None 1 1 ]} 2 ∅ ∅ in
  2 <> 1
  /\ servers d !! 1 = Some (mkServer "10.0.0.5" None 1 1)
  /\ checkServerCapacity d 1 2 None = true
  /\ selectBestServer d 2 defaultOptions = None
  /\ selectBestServer (mkDb {[ 1 := mkServer "10.0.0.5" None 1 0 ]} 2 ∅ ∅)
       2 defaultOptions <> None.
Proof.
  cbn. repeat split; try reflexivity; try lia. discriminate.
Qed.

(** C9, amended. For every analytic type other than 1,
    [checkServerCapacity] returns true for any existing server whatever
    its counters, and [reserveServerCapacity] and
    [releaseServerCapacity] return true without writing anything.
    Server selection is not a pass-through: for these types too it
    returns only a server that is not excluded and whose available
    capacity ([max - cur]) reaches the required capacity, and it returns
    null when all the servers that are not excluded lack that
    capacity. *)
Theorem other_types_capacity :
  forall (d : Db) (typeAnalyticId : Z),
    typeAnalyticId <> 1 ->
    (forall serverId server requiredCapacity,
        servers d !! serverId = Some server ->
        checkServerCapacity d serverId typeAnalyticId requiredCapacity = true)
    /\ (forall serverId capacity,
           reserveServerCapacity d serverId typeAnalyticId capacity = (d, true))
    /\ (forall serverId capacity,
           releaseServerCapacity d serverId typeAnalyticId capacity = (d, true))
    /\ (forall options,
           match selectBestServer d typeAnalyticId options with
           | Some best =>
               In best (getServerCapacityInfo d)
               /\ remaining options best
               /\ availableCapacity best
                  = s_max_activity_monitoring best
                    - s_cur_activity_monitoring best
           | None =>
               forall s, In s (getServerCapacityInfo d) ->
                         ~ In (id s) (default [] (excludeServerIds options)) ->
                         availableCapacity s
                         < default 1 (requiredCapacity options)
           end).
Proof.
  intros d typeAnalyticId Ht.
  apply Z.eqb_neq in Ht.
  split; [|split; [|split]].
  - intros serverId server requiredCapacity Hrow.
    unfold checkServerCapacity. rewrite Hrow, Ht. reflexivity.
  - intros serverId capacity. unfold reserveServerCapacity.
    rewrite Ht. reflexivity.
  - intros serverId capacity. unfold releaseServerCapacity.
    rewrite Ht. reflexivity.
  - intros options. apply Z.eqb_neq in Ht.
    destruct (selectBestServer_head d options typeAnalyticId)
      as (candidates & -> & Hc).
    destruct (head (sort compareServers candidates)) as [best|] eqn:Hh.
    + assert (Hb : In best candidates) by (eapply sort_head_In; exact Hh).
      apply Hc in Hb as [Hin He].
      apply eligible_other_type in He; [|exact Ht].
      split; [exact Hin|]. split; [exact He|].
      apply getServerCapacityInfo_In in Hin as (server & _ & ->). reflexivity.
    + apply sort_head_None in Hh. subst candidates.
      intros s Hin Hex.
      destruct (Z.lt_ge_cases (availableCapacity s)
                  (default 1 (requiredCapacity options))) as [H | H];
        [exact H|].
      exfalso. apply (Hc s). split; [exact Hin|].
      apply eligible_other_type; [exact Ht|]. split; assumption.
Qed.

Lemma other_types_capacity_witness :
  let d := mkDb {[ 1 := mkServer "10.0.0.5" None 1 1 ]} 2 ∅ ∅ in
  checkServerCapacity d 1 2 None = true
  /\ reserveServerCapacity d 1 2 None = (d, true).
Proof.
  intros d.
  destruct (other_types_capacity d 2 ltac:(lia)) as (Hcheck & Hreserve & _).
  split; [apply (Hcheck 1 (mkServer "10.0.0.5" None 1 1) None eq_refl)
         | apply Hreserve].
Defined.

End OtherTypesFacts.

(** ** Server controllers *)

Section ServerFeatureFacts.

Import ServerFeature.

Lemma findUniqueByIp_Some (d : Db) (address : string) (row : Z * Server) :
  findUniqueByIp d address = Some row ->
  servers d !! fst row = Some (snd row) /\ ip (snd row) = address.
Proof.
  unfold findUniqueByIp. intros H. apply find_some in H as [Hin Heq].
  apply String.eqb_eq in Heq. split; [|exact Heq].
  apply list_elem_of_In in Hin. destruct row as [k server].
  apply elem_of_map_to_list in Hin. exact Hin.
Qed.

Lemma findUniqueByIp_None (d : Db) (address : string) :
  findUniqueByIp d address = None <->
  forall k server, servers d !! k = Some server -> ip server <> address.
Proof.
  unfold findUniqueByIp. split.
  - intros H k server Hrow Heq.
    assert (Hin : In (k, server) (map_to_list (servers d)))
      by (apply list_elem_of_In, elem_of_map_to_list; exact Hrow).
    pose proof (find_none _ _ H (k, server) Hin) as Hne. cbn in Hne.
    apply String.eqb_neq in Hne. contradiction.
  - intros H. destruct (find _ _) as [row|] eqn:Hf; [|reflexivity].
    apply (findUniqueByIp_Some d address row) in Hf as [Hrow Heq].
    exfalso. exact (H _ _ Hrow Heq).
Qed.









Lemma countAnalytics_pos (d : Db) (serverId : Z) :
  0 < countAnalytics d serverId <->
  exists k analytic, primary_analytics d !! k = Some analytic
                     /\ servers_id analytic = Some serverId.
Proof.
  unfold countAnalytics, analyticsOf. split.
  - intros H.
    destruct (List.filter _ _) as [|[k analytic] rest] eqn:Hf; [cbn in H; lia|].
    assert (Hin : In (k, analytic) (List.filter
      (fun row => match servers_id (snd row) with
                  | Some sid => sid =? serverId
                  | None => false
                  end) (map_to_list (primary_analytics d))))
      by (rewrite Hf; left; reflexivity).
    apply filter_In in Hin as [Hin Hsid]. cbn in Hsid.
    exists k, analytic. split.
    + apply list_elem_of_In, elem_of_map_to_list in Hin. exact Hin.
    + destruct (servers_id analytic) as [sid|]; [|discriminate].
      apply Z.eqb_eq in Hsid. congruence.
  - intros (k & analytic & Hrow & Hsid).
    assert (Hin : In (k, analytic) (List.filter
      (fun row => match servers_id (snd row) with
                  | Some sid => sid =? serverId
                  | None => false
                  end) (map_to_list (primary_analytics d)))).
    { apply filter_In. split.
      - apply list_elem_of_In, elem_of_map_to_list. exact Hrow.
      - cbn. rewrite Hsid. apply Z.eqb_refl. }
    destruct (List.filter _ _); [destruct Hin | cbn; lia].
Qed.

(** C5. A DELETE /server/:id for an existing server: with at least one
    attached [primary_analytics] row the answer is 400 and the database
    is unchanged, the server and its counters included; the row is
    deleted, with a 200, exactly when no analytic is attached. *)
Theorem deleteServer_attached :
  forall (d : Db) (idParam : string) (serverId : Z) (server : Server),
    JS.parseInt (Some idParam) = Some serverId ->
    servers d !! serverId = Some server ->
    let d' := fst (deleteServer idParam d) in
    let r := snd (deleteServer idParam d) in
    ((exists k analytic, primary_analytics d !! k = Some analytic
                         /\ servers_id analytic = Some serverId) ->
     status r = 400 /\ d' = d /\ servers d' !! serverId = Some server)
    /\ (countAnalytics d serverId = 0 ->
        status r = 200 /\ servers d' !! serverId = None
        /\ forall k, k <> serverId -> servers d' !! k = servers d !! k)
    /\ (servers d' !! serverId = None -> countAnalytics d serverId = 0).
Proof.
  intros d idParam serverId server Hid Hrow d' r. subst d' r.
  unfold deleteServer. rewrite Hid, Hrow.
  split; [|split].
  - intros Hatt. apply countAnalytics_pos in Hatt.
    apply Z.ltb_lt in Hatt. rewrite Hatt. cbn.
    split; [reflexivity|]. split; [reflexivity | exact Hrow].
  - intros H0. rewrite H0. cbn.
    split; [reflexivity|]. split; [apply lookup_delete_eq|].
    intros k Hne. apply lookup_delete_ne. congruence.
  - destruct (0 <? countAnalytics d serverId) eqn:Hc; cbn.
    + rewrite Hrow. discriminate.
    + intros _. apply Z.ltb_ge in Hc.
      unfold countAnalytics in *. lia.
Qed.

Lemma deleteServer_attached_witness :
  let d := mkDb {[ 3 := mkServer "10.0.0.5" None 5 1 ]} 4
             {[ 1 := mkPrimaryAnalytic "gate" "active" (Some 3) 1 ]} ∅ in
  status (snd (deleteServer "3" d)) = 400
  /\ fst (deleteServer "3" d) = d
  /\ servers (fst (deleteServer "3" d)) !! 3
     = Some (mkServer "10.0.0.5" None 5 1).
Proof.
  intros d.
  destruct (deleteServer_attached d "3" 3 (mkServer "10.0.0.5" None 5 1)
              eq_refl eq_refl) as [Hatt _].
  apply Hatt.
  exists 1, (mkPrimaryAnalytic "gate" "active" (Some 3) 1).
  split; reflexivity.
Defined.

End ServerFeatureFacts.

(** ** Guards *)

Section MiddlewareFacts.

Import Middleware.

Lemma JS_includes_In (l : list string) (s : string) :
  JS.includes l s = true <-> In s l.
Proof.
  unfold JS.includes. rewrite existsb_exists. split.
  - intros (y & Hy & Heq). apply String.eqb_eq in Heq. subst. exact Hy.
  - intros H. exists s. split; [exact H | apply String.eqb_refl].
Qed.

Lemma truthy_Some (token : string) :
  token <> "" -> JS.truthy (Some token) = true.
Proof. destruct token; [congruence | reflexivity]. Qed.

Lemma verifySecurityToken_general (env : Env) (token : string) :
  verifySecurityToken env token (Some "general") = true <->
  In token (tokenList (GENERAL_TOKENS env)).
Proof.
  unfold verifySecurityToken. cbn. apply JS_includes_In.
Qed.

(** C6. On a route guarded by [authenticateToken], a request without an
    [auth_token] cookie (or with an empty one) is answered 401 and the
    handler is not invoked.  On a route guarded by [requireGeneralToken],
    a request that carries a token that is not in the list read from
    [GENERAL_TOKENS] is answered 403 and the handler is not invoked.  In
    both cases the database is untouched. *)
Theorem guards_reject :
  forall (D : Type) (jwtVerify : string -> string -> option JwtPayload)
         (now : string) (env : Env)
         (handler : Request -> Db -> Db * Response D)
         (req : Request) (d : Db),
    (JS.truthy (cookies_auth_token req) = false ->
     let served := dispatch (authenticateToken jwtVerify env) handler req d in
     status (response served) = 401
     /\ handlerInvoked served = false
     /\ db_after served = d)
    /\ (forall token,
           headerToken (headers req) = Some token ->
           token <> "" ->
           ~ In token (tokenList (GENERAL_TOKENS env)) ->
           let served := dispatch (requireGeneralToken now env) handler req d in
           status (response served) = 403
           /\ handlerInvoked served = false
           /\ db_after served = d).
Proof.
  intros D jwtVerify now env handler req d. split.
  - intros Hcookie served. subst served.
    unfold dispatch, authenticateToken.
    rewrite Hcookie. cbn. split; [reflexivity|]. split; reflexivity.
  - intros token Htoken Hne Hnot served. subst served.
    assert (Hv : verifySecurityToken env token (Some "general") = false).
    { destruct (verifySecurityToken env token (Some "general")) eqn:Hv;
        [|reflexivity].
      apply verifySecurityToken_general in Hv. contradiction. }
    unfold dispatch, requireGeneralToken, requireSecurityToken.
    rewrite Htoken, (truthy_Some token Hne).
    change (default "" (Some token)) with token.
    rewrite Hv. cbn. split; [reflexivity|]. split; reflexivity.
Qed.

Lemma guards_reject_witness :
  let env := mkEnv None None None None (Some "alpha, beta") in
  let handler := fun (req : Request) (d : Db) => (d, failure (D := unit) 200 "ok") in
  let anonymous := mkRequest None (mkHeaders None None None None) None None in
  let stranger :=
    mkRequest None (mkHeaders None None (Some "Bearer gamma") None) None None in
  let d := mkDb ∅ 1 ∅ ∅ in
  status (response (dispatch (authenticateToken (fun _ _ => None) env)
                      handler anonymous d)) = 401
  /\ status (response (dispatch (requireGeneralToken "2026-01-01T00:00:00.000Z" env)
                         handler stranger d)) = 403.
Proof.
  intros env handler anonymous stranger d.
  destruct (guards_reject unit (fun _ _ => None) "2026-01-01T00:00:00.000Z"
              env handler anonymous d) as [Hcookie _].
  destruct (guards_reject unit (fun _ _ => None) "2026-01-01T00:00:00.000Z"
              env handler stranger d) as [_ Htoken].
  split.
  - apply Hcookie. reflexivity.
  - apply (Htoken "gamma"); [reflexivity | discriminate |].
    vm_compute. intros [H | [H | []]]; discriminate.
Defined.

(** A token of the list passes the guard, so the refusal above is not
    the only behaviour of [requireGeneralToken]. *)
Example requireGeneralToken_accepts :
  let env := mkEnv None None None None (Some "alpha, beta") in
  let req := mkRequest None (mkHeaders None None (Some "Bearer beta") None)
               None None in
  requireGeneralToken (D := unit) "2026-01-01T00:00:00.000Z" env (mkDb ∅ 1 ∅ ∅) req
  = Next (setSecurityToken req
            (mkSecurityToken "beta***" (Some "general")
               "2026-01-01T00:00:00.000Z")).
Proof. reflexivity. Qed.

End MiddlewareFacts.

(** * Further properties of the modelled code *)

(** ** Pagination: clamping and the length of a page *)

Section PaginationMoreFacts.

Import Pagination.

(** X1. Whatever the query and the options, the parameters handed to the
    queries are in range: the page is at least 1, the limit is between 1
    and the maximal limit (100 by default, or 1 if the configured
    maximum is lower) and the offset is not negative; as long as
    [(page - 1) * limit] stays below [2^53], where the product of the
    code is exact, the offset is that product; a page or a limit that is
    absent or does not parse gives page 1 and the clamped default
    limit. *)
Theorem getPaginationParams_in_range :
  forall (q : Query) (options : PaginationOptions),
    let params := getPaginationParams q options in
    let maxL := default 100 (maxLimit options) in
    let defL := default 10 (defaultLimit options) in
    1 <= page params
    /\ 1 <= limit params <= Z.max 1 maxL
    /\ 0 <= skip params
    /\ ((page params - 1) * limit params < JS.MAX_EXACT ->
        skip params = (page params - 1) * limit params)
    /\ (JS.parseInt (q_page q) = None -> page params = 1)
    /\ (JS.parseInt (q_limit q) = None ->
        limit params = Z.max 1 (Z.min defL maxL)).
Proof.
  intros q options params maxL defL.
  destruct (getPaginationParams_bounds q options) as (Hp & Hl & Hm & Hs).
  fold params in Hp, Hl, Hm, Hs. fold maxL in Hm.
  split; [exact Hp|]. split; [lia|].
  split; [rewrite Hs; nia|]. split; [intros _; exact Hs|].
  split; intros Hnone; subst params; unfold getPaginationParams; cbn;
    rewrite Hnone; cbn; reflexivity.
Qed.

(** X3. The number of rows on a page is [min(limit, max(0, total -
    skip))]: a page with a successor is full, and a page beyond the last
    one is empty. *)
Theorem page_length :
  forall (T : Type) (rows : list T) (q : Query) (options : PaginationOptions),
    let params := getPaginationParams q options in
    let r := listRows rows q options in
    let total := Z.of_nat (length rows) in
    Z.of_nat (length (data r))
    = Z.min (limit params) (Z.max 0 (total - skip params))
    /\ (m_hasNext (pagination r) = true ->
        Z.of_nat (length (data r)) = limit params)
    /\ (m_totalPages (pagination r) < page params -> data r = []).
Proof.
  intros T rows q options params r total.
  destruct (getPaginationParams_bounds q options) as (Hp & Hl & _ & Hs).
  fold params in Hp, Hl, Hs.
  assert (Hlen : Z.of_nat (length (data r))
                 = Z.min (limit params) (Z.max 0 (total - skip params))).
  { subst r. unfold listRows, handlePagination, createPaginatedResponse.
    cbn [data]. fold params. unfold findMany.
    rewrite length_firstn, length_skipn. subst total. nia. }
  assert (Htp : m_totalPages (pagination r)
                = JS.ceilDiv total (limit params)) by reflexivity.
  assert (Hhn : m_hasNext (pagination r)
                = (page params <? JS.ceilDiv total (limit params)))
    by reflexivity.
  split; [exact Hlen|]. split.
  - intros Hnext. rewrite Hlen. rewrite Hhn in Hnext.
    apply (lt_ceilDiv (page params) total (limit params) ltac:(lia)) in Hnext.
    nia.
  - intros Hlast. rewrite Htp in Hlast.
    assert (H0 : Z.of_nat (length (data r)) = 0).
    { rewrite Hlen.
      pose proof (ceilDiv_bounds total (limit params) ltac:(lia)) as [_ Hc].
      nia. }
    destruct (data r); [reflexivity | cbn in H0; lia].
Qed.

End PaginationMoreFacts.

(** ** The query validator of GET /server and the pagination helper *)

Section ServerQueryFacts.

Import Pagination ServerFeature.

Lemma hasHexPrefix_radix10 (s : string) :
  JS.hasHexPrefix s = true -> JS.parseDigits 10 s None = Some 0.
Proof.
  destruct s as [|a [|b t]]; try discriminate.
  - destruct a as [[] [] [] [] [] [] [] []]; discriminate.
  - destruct a as [[] [] [] [] [] [] [] []]; try discriminate.
    destruct b as [[] [] [] [] [] [] [] []]; try discriminate;
      intros _; reflexivity.
Qed.

Lemma parseUnsigned_radix10 (s : string) (n : Z) :
  JS.parseDigits 10 s None = Some n -> n <> 0 -> JS.parseUnsigned s = Some n.
Proof.
  intros H Hn. unfold JS.parseUnsigned.
  destruct (JS.hasHexPrefix s) eqn:Hx; [|exact H].
  rewrite (hasHexPrefix_radix10 s Hx) in H. congruence.
Qed.

Lemma parseInt_radix10 (val : option string) (n : Z) :
  JS.parseIntRadix10 val = Some n -> 0 < n -> JS.parseInt val = Some n.
Proof.
  destruct val as [s|]; [|discriminate].
  unfold JS.parseIntRadix10, JS.parseInt.
  destruct (JS.trimStart s) as [|c t].
  - intros H Hn. apply parseUnsigned_radix10; [exact H | lia].
  - destruct c as [[] [] [] [] [] [] [] []]; intros H Hn;
      try (apply parseUnsigned_radix10; [exact H | lia]).
    destruct (JS.parseDigits 10 t None) as [m|] eqn:Hm; [|discriminate].
    cbn in H. injection H as <-.
    rewrite (parseUnsigned_radix10 t m Hm) by lia. reflexivity.
Qed.

Lemma parseInt_falsy (val : option string) :
  JS.truthy val = false -> JS.parseInt val = None.
Proof.
  destruct val as [[|c s]|]; [reflexivity | discriminate | reflexivity].
Qed.

Lemma numberParamSchema_numOr (key : string) (d : Z) (ok : Z -> bool)
  (val : option string) (n : Z) :
  (forall v, ok v = true -> 0 < v) ->
  numberParamSchema key d ok val = inr n ->
  0 < n /\ ok n = true /\ JS.numOr (JS.parseInt val) d = n.
Proof.
  intros Hok. unfold numberParamSchema.
  destruct (JS.truthy val) eqn:Ht.
  - destruct (JS.parseIntRadix10 val) as [m|] eqn:Hm; [|discriminate].
    destruct (ok m) eqn:Hm'; [|discriminate]. intros [= <-].
    pose proof (Hok m Hm') as Hpos.
    rewrite (parseInt_radix10 val m Hm Hpos). cbn.
    destruct (Z.eqb_spec m 0); [lia|]. auto.
  - destruct (ok d) eqn:Hd; [|discriminate]. intros [= <-].
    rewrite (parseInt_falsy val Ht). cbn. auto.
Qed.

(** X4. When the query of GET /server passes [serverQuerySchema], the
    validated page is at least 1, the validated limit is between 1 and
    100, and the pagination helper, which parses the raw query again
    (without a radix, with its own clamping), arrives at exactly the
    validated page and limit; its offset is [(page - 1) * limit] of the
    validated values as long as that product stays below [2^53]. *)
Theorem serverQuerySchema_agrees_with_pagination :
  forall (raw : ServerQueryRaw) (validated : ServerQueryInput),
    serverQuerySchema raw = inr validated ->
    1 <= sq_page validated
    /\ 1 <= sq_limit validated <= 100
    /\ page (getPaginationParams (rq_query raw) noOptions)
       = sq_page validated
    /\ limit (getPaginationParams (rq_query raw) noOptions)
       = sq_limit validated
    /\ ((sq_page validated - 1) * sq_limit validated < JS.MAX_EXACT ->
        skip (getPaginationParams (rq_query raw) noOptions)
        = (sq_page validated - 1) * sq_limit validated).
Proof.
  intros raw validated. unfold serverQuerySchema.
  destruct (numberParamSchema "page" 1 _ (q_page (rq_query raw)))
    as [e|p] eqn:Hp.
  { destruct (numberParamSchema "limit" 10 _ _), (sortOrderSchema _);
      discriminate. }
  destruct (numberParamSchema "limit" 10 _ (q_limit (rq_query raw)))
    as [e|l] eqn:Hl.
  { destruct (sortOrderSchema _); discriminate. }
  destruct (sortOrderSchema (rq_sort_order raw)) as [e|o]; [discriminate|].
  intros [= <-]. cbn [sq_page sq_limit].
  apply numberParamSchema_numOr in Hp as (Hp0 & _ & Hp);
    [|intros v Hv; apply Z.ltb_lt; exact Hv].
  apply numberParamSchema_numOr in Hl as (Hl0 & Hl1 & Hl);
    [|intros v Hv; apply andb_prop in Hv as [Hv _]; apply Z.ltb_lt; exact Hv].
  apply andb_prop in Hl1 as [_ Hl1]. apply Z.leb_le in Hl1.
  split; [lia|]. split; [lia|].
  unfold getPaginationParams. cbn [maxLimit defaultLimit noOptions default].
  rewrite Hp, Hl.
  replace (Z.min l 100) with l by lia.
  replace (Z.max 1 p) with p by lia.
  replace (Z.max 1 l) with l by lia.
  cbn [page limit skip].
  split; [reflexivity|]. split; [reflexivity|]. intros _. reflexivity.
Qed.

Lemma serverQuerySchema_agrees_with_pagination_witness :
  let raw :=
    mkServerQueryRaw (mkQuery (Some "3") (Some "25") None None None)
      None (Some "asc") in
  page (getPaginationParams (rq_query raw) noOptions) = 3
  /\ limit (getPaginationParams (rq_query raw) noOptions) = 25
  /\ skip (getPaginationParams (rq_query raw) noOptions) = 50.
Proof.
  intros raw.
  destruct (serverQuerySchema_agrees_with_pagination raw
              (mkServerQueryInput 3 25 None None (Some Sorting.asc)) eq_refl)
    as (_ & _ & Hpage & Hlimit & Hskip).
  split; [exact Hpage|]. split; [exact Hlimit|].
  apply Hskip. reflexivity.
Defined.

(** A page in hexadecimal is read as 0 by the validator, and refused,
    where the helper alone would have read 16. *)
Example serverQuerySchema_hexadecimal :
  let raw :=
    mkServerQueryRaw (mkQuery (Some "0x10") None None None None) None None in
  serverQuerySchema raw = inl ["page"]
  /\ page (getPaginationParams (rq_query raw) noOptions) = 16.
Proof. split; reflexivity. Qed.

End ServerQueryFacts.

(** ** Search and sort: what reaches the query *)

Section SearchSortMoreFacts.

Import Search Sorting.

Lemma trimEnd_idempotent (s : string) :
  JS.trimEnd (JS.trimEnd s) = JS.trimEnd s.
Proof.
  induction s as [|c s IH]; [reflexivity|]. cbn.
  destruct (JS.isWhiteSpace c && JS.isEmpty (JS.trimEnd s)) eqn:E;
    [reflexivity|].
  cbn. rewrite IH, E. reflexivity.
Qed.

Lemma trimStart_trimEnd (s : string) :
  JS.trimStart (JS.trimEnd (JS.trimStart s)) = JS.trimEnd (JS.trimStart s).
Proof.
  pose proof (trimStart_head s) as H.
  destruct (JS.trimStart s) as [|c t]; [reflexivity|].
  cbn. rewrite H. cbn. rewrite H. reflexivity.
Qed.

Lemma trim_idempotent (s : string) : JS.trim (JS.trim s) = JS.trim s.
Proof.
  unfold JS.trim. rewrite trimStart_trimEnd. apply trimEnd_idempotent.
Qed.

Lemma blank_false_trim (s : string) :
  blank s = false -> JS.isEmpty (JS.trim s) = false.
Proof.
  intros H. destruct (JS.trim s) eqn:Ht; [|reflexivity].
  apply trim_empty_blank in Ht. congruence.
Qed.

(** X5. A search term with a visible character always filters: the
    where-clause is not empty, it holds one filter per configured search
    field, in their order, and every filter carries the configured mode
    and the term with its outer white space removed (trimming it again
    changes nothing).  With exactly one field the clause is that filter
    itself, otherwise an OR. *)
Theorem handleSearch_term :
  forall (q : Query) (options : SearchOptions) (s : string),
    q_search q = Some s ->
    blank s = false ->
    let fields := default ["name"] (o_searchFields options) in
    let mode := default contains (o_searchMode options) in
    let term := JS.trim s in
    handleSearch q options <> WhereEmpty
    /\ filtersOf (handleSearch q options)
       = map (fun field => mkFieldFilter field mode term) fields
    /\ JS.trim term = term
    /\ (forall field, fields = [field] ->
          handleSearch q options = WhereField (mkFieldFilter field mode term))
    /\ (length fields <> 1%nat ->
          handleSearch q options
          = WhereOR (map (fun field => mkFieldFilter field mode term) fields)).
Proof.
  intros q options s Hq Hb fields mode term.
  assert (He : JS.isEmpty term = false) by (apply blank_false_trim; exact Hb).
  assert (Hh : handleSearch q options
               = match fields with
                 | [field] => WhereField (mkFieldFilter field mode term)
                 | _ => WhereOR (map (fun field => mkFieldFilter field mode term)
                                   fields)
                 end).
  { unfold handleSearch, getSearchParams, buildSearchWhereClause.
    cbn [search searchFields]. rewrite Hq. cbn [option_map].
    fold term. unfold JS.orElse, JS.truthy. rewrite He. cbn [negb].
    rewrite He. reflexivity. }
  rewrite Hh. split; [|split; [|split; [|split]]].
  - destruct fields as [|f [|g fs]]; discriminate.
  - destruct fields as [|f [|g fs]]; reflexivity.
  - apply trim_idempotent.
  - intros field ->. reflexivity.
  - intros Hlen. destruct fields as [|f [|g fs]]; try reflexivity.
    cbn in Hlen. congruence.
Qed.

Lemma handleSearch_term_witness :
  let q := mkQuery None None (Some "  10.0 ") None None in
  let options := mkSearchOptions (Some ["ip"; "description"]) (Some contains) in
  handleSearch q options
  = WhereOR [mkFieldFilter "ip" contains "10.0";
             mkFieldFilter "description" contains "10.0"].
Proof.
  intros q options.
  destruct (handleSearch_term q options "  10.0 " eq_refl eq_refl)
    as (_ & _ & _ & _ & Hor).
  apply Hor. cbn. discriminate.
Defined.

(** X6. The field of the orderBy clause never comes from the request
    unchecked: it is a member of the allow-list or the configured
    default field, whatever [sortBy] holds. *)
Theorem handleSorting_field_allowed :
  forall (q : Query) (options : SortOptions),
    In (fst (handleSorting q options)) (configuredAllowList options)
    \/ fst (handleSorting q options) = configuredField options.
Proof.
  intros q options. unfold handleSorting, buildOrderByClause, getSortParams.
  cbn [fst field]. fold (configuredAllowList options).
  fold (configuredField options).
  destruct (q_sortBy q) as [s|]; [|right; reflexivity].
  destruct (negb (JS.isEmpty s) && JS.includes (configuredAllowList options) s)
    eqn:E; [|right; reflexivity].
  left. apply andb_prop in E as [_ E]. apply JS_includes_In. exact E.
Qed.

End SearchSortMoreFacts.

(** ** Capacity helpers: how they compose and what they keep *)

Section CapacityMoreFacts.

Import ServerSelection.

Lemma getServerCapacityInfo_ids (d : Db) :
  map id (getServerCapacityInfo d) = (map_to_list (servers d)).*1.
Proof.
  unfold getServerCapacityInfo. rewrite map_map. reflexivity.
Qed.

(** X7. [getServerCapacityInfo] lists every server row once: as many
    entries as rows, with pairwise distinct ids.  When the counters of
    the table lie between 0 and their maximum, every entry has an
    available capacity between 0 and its maximum and a utilization
    between 0 and 100 percent. *)
Theorem getServerCapacityInfo_entries :
  forall (d : Db),
    consistentCounters d ->
    NoDup (map id (getServerCapacityInfo d))
    /\ length (getServerCapacityInfo d) = size (servers d)
    /\ forall s, In s (getServerCapacityInfo d) ->
         0 <= availableCapacity s <= s_max_activity_monitoring s
         /\ (0 <= utilizationPercentage s)%Q
         /\ (utilizationPercentage s <= 100)%Q.
Proof.
  intros d Hc. split; [|split].
  - rewrite getServerCapacityInfo_ids. apply NoDup_fst_map_to_list.
  - unfold getServerCapacityInfo. rewrite length_map.
    apply length_map_to_list.
  - intros s Hin. apply getServerCapacityInfo_In in Hin as (server & Hrow & ->).
    specialize (Hc _ _ Hrow). cbn.
    split; [lia|].
    destruct (Z.ltb_spec 0 (max_activity_monitoring server)) as [Hpos | Hle].
    + assert (H0 : (0 <= inject_Z (cur_activity_monitoring server)
                         / inject_Z (max_activity_monitoring server))%Q).
      { apply Qle_shift_div_l.
        - replace 0%Q with (inject_Z 0) by reflexivity.
          rewrite <- Zlt_Qlt. exact Hpos.
        - rewrite Qmult_0_l.
          replace 0%Q with (inject_Z 0) by reflexivity.
          rewrite <- Zle_Qle. lia. }
      assert (H1 : (inject_Z (cur_activity_monitoring server)
                    / inject_Z (max_activity_monitoring server) <= 1)%Q).
      { apply Qle_shift_div_r.
        - replace 0%Q with (inject_Z 0) by reflexivity.
          rewrite <- Zlt_Qlt. exact Hpos.
        - rewrite Qmult_1_l. rewrite <- Zle_Qle. lia. }
      split; lra.
    + split; lra.
Qed.

Lemma getServerCapacityInfo_entries_witness :
  let d := mkDb {[ 1 := mkServer "10.0.0.5" None 4 1 ]} 2 ∅ ∅ in
  length (getServerCapacityInfo d) = 1%nat
  /\ forall s, In s (getServerCapacityInfo d) ->
       0 <= availableCapacity s <= s_max_activity_monitoring s
       /\ (0 <= utilizationPercentage s)%Q
       /\ (utilizationPercentage s <= 100)%Q.
Proof.
  intros d.
  destruct (getServerCapacityInfo_entries d) as (_ & Hlen & Hbounds).
  - intros k server Hrow. subst d. cbn [servers] in Hrow.
    apply lookup_singleton_Some in Hrow as [<- <-]. cbn. lia.
  - split; [exact Hlen | exact Hbounds].
Defined.



Lemma setServers_same (d : Db) : setServers d (servers d) = d.
Proof. destruct d; reflexivity. Qed.

(** X9. Reserve, then release, is a round trip: for an existing server
    with a non-negative counter and analytic type 1, a reservation that
    succeeds followed by the release of the same amount gives back the
    database as it was. *)
Theorem reserve_release_round_trip :
  forall (d : Db) (serverId : Z) (server : Server) (capacity : option Z),
    servers d !! serverId = Some server ->
    0 <= cur_activity_monitoring server ->
    snd (reserveServerCapacity d serverId 1 capacity) = true ->
    releaseServerCapacity
      (fst (reserveServerCapacity d serverId 1 capacity)) serverId 1 capacity
    = (d, true).
Proof.
  intros d serverId server capacity Hrow Hcur.
  unfold reserveServerCapacity. cbn [Z.eqb Pos.eqb]. rewrite Hrow.
  destruct (max_activity_monitoring server
            <? cur_activity_monitoring server + default 1 capacity);
    [discriminate|].
  intros _. cbn [fst].
  rewrite (releaseServerCapacity_writes _ serverId
             (setCur server (cur_activity_monitoring server + default 1 capacity))
             capacity) by apply lookup_insert_eq.
  f_equal. unfold setServers.
  cbn [servers servers_seq primary_analytics users].
  rewrite insert_insert_eq.
  assert (Hback :
    setCur (setCur server (cur_activity_monitoring server + default 1 capacity))
      (Z.max 0
         (cur_activity_monitoring
            (setCur server (cur_activity_monitoring server + default 1 capacity))
          - default 1 capacity))
    = server).
  { destruct server. cbn in *. f_equal. lia. }
  rewrite Hback, insert_id by exact Hrow.
  destruct d; reflexivity.
Qed.

Lemma reserve_release_round_trip_witness :
  let d := mkDb {[ 7 := mkServer "10.0.0.5" None 5 4 ]} 8 ∅ ∅ in
  releaseServerCapacity (fst (reserveServerCapacity d 7 1 None)) 7 1 None
  = (d, true).
Proof.
  intros d.
  apply (reserve_release_round_trip d 7 (mkServer "10.0.0.5" None 5 4) None
           eq_refl); [cbn; lia | reflexivity].
Defined.

Lemma insert_consistent (d : Db) (serverId : Z) (server : Server) :
  0 <= cur_activity_monitoring server <= max_activity_monitoring server ->
  consistentCounters d ->
  consistentCounters (setServers d (<[serverId := server]> (servers d))).
Proof.
  intros Hs Hc k row. cbn.
  destruct (decide (k = serverId)) as [-> | Hne].
  - rewrite lookup_insert_eq. intros [= <-]. exact Hs.
  - rewrite lookup_insert_ne by congruence. apply Hc.
Qed.

(** X10. The capacity invariant [0 <= cur <= max] of the server table is
    kept by [reserveServerCapacity] and by [releaseServerCapacity], for
    every server id, every type and every amount that is not negative. *)
Theorem capacity_helpers_keep_counters_consistent :
  forall (d : Db) (serverId typeAnalyticId : Z) (capacity : option Z),
    consistentCounters d ->
    0 <= default 1 capacity ->
    consistentCounters
      (fst (reserveServerCapacity d serverId typeAnalyticId capacity))
    /\ consistentCounters
         (fst (releaseServerCapacity d serverId typeAnalyticId capacity)).
Proof.
  intros d serverId typeAnalyticId capacity Hc Hcap.
  unfold reserveServerCapacity, releaseServerCapacity.
  destruct (typeAnalyticId =? 1); [|split; exact Hc].
  destruct (servers d !! serverId) as [server|] eqn:Hrow; [|split; exact Hc].
  pose proof (Hc _ _ Hrow) as Hs.
  split.
  - destruct (Z.ltb_spec (max_activity_monitoring server)
                (cur_activity_monitoring server + default 1 capacity));
      [exact Hc|].
    cbn [fst]. apply insert_consistent; [cbn; lia | exact Hc].
  - cbn [fst]. apply insert_consistent; [cbn; lia | exact Hc].
Qed.

(** A server at 2 of 5: reserving 2 writes 4, releasing 3 writes 0, and
    both tables satisfy the invariant. *)
Lemma capacity_helpers_keep_counters_consistent_witness :
  let d := mkDb {[ 7 := mkServer "10.0.0.5" None 5 2 ]} 8 ∅ ∅ in
  (servers (fst (reserveServerCapacity d 7 1 (Some 2))) !! 7
   = Some (mkServer "10.0.0.5" None 5 4)
   /\ consistentCounters (fst (reserveServerCapacity d 7 1 (Some 2))))
  /\ (servers (fst (releaseServerCapacity d 7 1 (Some 3))) !! 7
      = Some (mkServer "10.0.0.5" None 5 0)
      /\ consistentCounters (fst (releaseServerCapacity d 7 1 (Some 3)))).
Proof.
  intros d.
  assert (Hd : consistentCounters d).
  { intros k server Hrow. subst d. cbn [servers] in Hrow.
    apply lookup_singleton_Some in Hrow as [_ <-]. cbn. lia. }
  split; (split; [apply lookup_insert_eq|]).
  - apply (capacity_helpers_keep_counters_consistent d 7 1 (Some 2) Hd).
    cbn. lia.
  - apply (capacity_helpers_keep_counters_consistent d 7 1 (Some 3) Hd).
    cbn. lia.
Defined.



(** X12. The capacity helpers write nothing but the counter: after a
    reservation or a release, for any arguments, the table has the same
    server ids, every server has the ip, the description and the maximum
    it had, and the other tables and the id counter are untouched.  For
    type 1 and an id without a row both answer false and change
    nothing. *)
Theorem capacity_helpers_write_counter_only :
  forall (d : Db) (serverId typeAnalyticId : Z) (capacity : option Z),
    let after :=
      [fst (reserveServerCapacity d serverId typeAnalyticId capacity);
       fst (releaseServerCapacity d serverId typeAnalyticId capacity)] in
    (forall d', In d' after ->
       (forall k, fixedColumns <$> servers d' !! k
                  = fixedColumns <$> servers d !! k)
       /\ servers_seq d' = servers_seq d
       /\ primary_analytics d' = primary_analytics d
       /\ users d' = users d)
    /\ (servers d !! serverId = None ->
        reserveServerCapacity d serverId 1 capacity = (d, false)
        /\ releaseServerCapacity d serverId 1 capacity = (d, false)
        /\ checkServerCapacity d serverId typeAnalyticId capacity = false).
Proof.
  intros d serverId typeAnalyticId capacity after.
  set (P := fun d' : Db =>
              (forall k, fixedColumns <$> servers d' !! k
                         = fixedColumns <$> servers d !! k)
              /\ servers_seq d' = servers_seq d
              /\ primary_analytics d' = primary_analytics d
              /\ users d' = users d).
  assert (Hsame : P d) by (repeat split).
  assert (Hset : forall cur server,
             servers d !! serverId = Some server ->
             P (setServers d (<[serverId := setCur server cur]> (servers d)))).
  { intros cur server Hrow. split; [|repeat split].
    intros k. cbn [setServers servers].
    destruct (decide (k = serverId)) as [-> | Hne].
    - rewrite lookup_insert_eq, Hrow. reflexivity.
    - rewrite lookup_insert_ne by congruence. reflexivity. }
  split.
  - intros d' Hin. fold (P d'). subst after.
    destruct Hin as [<- | [<- | []]].
    + unfold reserveServerCapacity.
      destruct (typeAnalyticId =? 1); [|exact Hsame].
      destruct (servers d !! serverId) as [server|] eqn:Hrow; [|exact Hsame].
      destruct (max_activity_monitoring server
                <? cur_activity_monitoring server + default 1 capacity);
        [exact Hsame | apply Hset; reflexivity].
    + unfold releaseServerCapacity.
      destruct (typeAnalyticId =? 1); [|exact Hsame].
      destruct (servers d !! serverId) as [server|] eqn:Hrow; [|exact Hsame].
      apply Hset. reflexivity.
  - intros Hnone. unfold reserveServerCapacity, releaseServerCapacity,
      checkServerCapacity. cbn [Z.eqb Pos.eqb]. rewrite Hnone.
    repeat split.
Qed.

End CapacityMoreFacts.

(** ** Server controllers: validation, invariants of the table, round trips *)

Section ServerFeatureMoreFacts.

Import ServerFeature.

Variable zodIp : string -> bool.

Lemma createServerSchema_accepts (body : CreateServerBody)
  (serverData : CreateServerInput) :
  createServerSchema zodIp body = inr serverData ->
  zodIp (i_ip serverData) = true
  /\ 0 <= i_max_activity_monitoring serverData
  /\ 0 <= i_cur_activity_monitoring serverData.
Proof.
  unfold createServerSchema, ipSchema, counterSchema.
  destruct (b_ip body) as [| |address]; cbn.
  1,2: destruct (descriptionSchema _),
         (match b_max_activity_monitoring body with
          | Omitted => _ | Malformed => _ | Given _ => _ end),
         (match b_cur_activity_monitoring body with
          | Omitted => _ | Malformed => _ | Given _ => _ end); discriminate.
  destruct (zodIp address) eqn:Hip.
  2: destruct (descriptionSchema _),
       (match b_max_activity_monitoring body with
        | Omitted => _ | Malformed => _ | Given _ => _ end),
       (match b_cur_activity_monitoring body with
        | Omitted => _ | Malformed => _ | Given _ => _ end); discriminate.
  destruct (descriptionSchema (b_description body)) as [e|de].
  1: destruct (match b_max_activity_monitoring body with
               | Omitted => _ | Malformed => _ | Given _ => _ end),
       (match b_cur_activity_monitoring body with
        | Omitted => _ | Malformed => _ | Given _ => _ end); discriminate.
  destruct (b_max_activity_monitoring body) as [| |m];
    [| destruct (match b_cur_activity_monitoring body with
                 | Omitted => _ | Malformed => _ | Given _ => _ end);
       discriminate |].
  - destruct (b_cur_activity_monitoring body) as [| |c]; try discriminate.
    + intros [= <-]. cbn. repeat split; [exact Hip | lia | lia].
    + destruct (Z.leb_spec 0 c); [|discriminate].
      intros [= <-]. cbn. repeat split; [exact Hip | lia | lia].
  - destruct (Z.leb_spec 0 m).
    2: destruct (match b_cur_activity_monitoring body with
                 | Omitted => _ | Malformed => _ | Given _ => _ end);
       discriminate.
    destruct (b_cur_activity_monitoring body) as [| |c]; try discriminate.
    + intros [= <-]. cbn. repeat split; [exact Hip | lia | lia].
    + destruct (Z.leb_spec 0 c); [|discriminate].
      intros [= <-]. cbn. repeat split; [exact Hip | lia | lia].
Qed.

Lemma createServerSchema_issues (body : CreateServerBody) (paths : list string) :
  createServerSchema zodIp body = inl paths -> paths <> [].
Proof.
  unfold createServerSchema.
  destruct (ipSchema zodIp (b_ip body)) as [[|e1 l1]|i] eqn:H1;
    destruct (descriptionSchema (b_description body)) as [[|e2 l2]|de] eqn:H2;
    destruct (counterSchema "max_activity_monitoring"
                (b_max_activity_monitoring body)) as [[|e3 l3]|m] eqn:H3;
    destruct (counterSchema "cur_activity_monitoring"
                (b_cur_activity_monitoring body)) as [[|e4 l4]|c] eqn:H4;
    cbn; intros [= <-]; try discriminate.
  all: exfalso.
  all: try (unfold ipSchema in H1; destruct (b_ip body);
            try destruct (zodIp _); discriminate).
  all: try (unfold descriptionSchema in H2; destruct (b_description body);
            discriminate).
  all: try (unfold counterSchema in H3;
            destruct (b_max_activity_monitoring body);
            try destruct (0 <=? _); discriminate).
  all: try (unfold counterSchema in H4;
            destruct (b_cur_activity_monitoring body);
            try destruct (0 <=? _); discriminate).
Qed.

(** X13. POST /server never stores what the schema refuses.  A body
    with an issue is answered 400 with the paths of its issues (at least
    one), the handler is not invoked and the database is unchanged.  A
    body that passes has an ip of the accepted format and counters that
    are not negative, so a table without negative counters stays
    without. *)
Theorem postServer_validates :
  forall (body : CreateServerBody) (d : Db),
    let served := postServer zodIp body d in
    match createServerSchema zodIp body with
    | inl paths =>
        paths <> []
        /\ status (response served) = 400
        /\ errors (response served) = paths
        /\ handlerInvoked served = false
        /\ db_after served = d
    | inr serverData =>
        handlerInvoked served = true
        /\ zodIp (i_ip serverData) = true
        /\ 0 <= i_max_activity_monitoring serverData
        /\ 0 <= i_cur_activity_monitoring serverData
    end
    /\ (ServerSelection.nonNegativeCounters d ->
        ServerSelection.nonNegativeCounters (db_after served)).
Proof.
  intros body d served. subst served.
  unfold postServer, dispatch, validateCreateServer.
  destruct (createServerSchema zodIp body) as [paths|serverData] eqn:Hs.
  - split; [|intros H; exact H].
    split; [exact (createServerSchema_issues body paths Hs)|].
    repeat split.
  - pose proof (createServerSchema_accepts body serverData Hs) as (Hip & Hm & Hc).
    unfold createServer.
    destruct (findUniqueByIp d (i_ip serverData)); cbn.
    + split; [repeat split; assumption | intros H; exact H].
    + unfold create.
      destruct (fitsColumns (newRow serverData)); cbn.
      * split; [repeat split; assumption|].
        intros Hnn k row. cbn.
        destruct (decide (k = servers_seq d)) as [-> | Hne].
        -- rewrite lookup_insert_eq. intros [= <-]. cbn. exact Hc.
        -- rewrite lookup_insert_ne by congruence. apply Hnn.
      * split; [repeat split; assumption | intros H; exact H].
Qed.

Lemma insert_uniqueIps (d : Db) (k : Z) (row : Server) :
  uniqueIps d ->
  (forall k' server, servers d !! k' = Some server -> ip server = ip row ->
                     k' = k) ->
  uniqueIps (mkDb (<[k := row]> (servers d)) (servers_seq d)
               (primary_analytics d) (users d)).
Proof.
  intros Hu Hrow k1 k2 s1 s2. cbn.
  destruct (decide (k1 = k)) as [-> | H1], (decide (k2 = k)) as [-> | H2];
    rewrite ?lookup_insert_eq, ?lookup_insert_ne by congruence.
  - intros _ _ _. reflexivity.
  - intros [= <-] H Heq. symmetry in Heq. exfalso. apply H2.
    exact (Hrow _ _ H Heq).
  - intros H [= <-] Heq. exfalso. apply H1. exact (Hrow _ _ H Heq).
  - apply Hu.
Qed.

Lemma uniqueIps_seq (d : Db) (n : Z) :
  uniqueIps d ->
  uniqueIps (mkDb (servers d) n (primary_analytics d) (users d)).
Proof. intros H. exact H. Qed.

(** X14. POST /server keeps the table of servers sound.  If no two rows
    share an ip and the id counter is above every id in use, the same
    holds after the request, every row that was there is still there
    unchanged, and the table grows by exactly one row when the answer is
    201 and not at all otherwise. *)
Theorem postServer_keeps_table_sound :
  forall (body : CreateServerBody) (d : Db),
    uniqueIps d ->
    freshSeq d ->
    let served := postServer zodIp body d in
    let d' := db_after served in
    uniqueIps d'
    /\ freshSeq d'
    /\ (forall k server, servers d !! k = Some server ->
                         servers d' !! k = Some server)
    /\ (status (response served) = 201 ->
        size (servers d') = S (size (servers d)))
    /\ (status (response served) <> 201 -> d' = d).
Proof.
  intros body d Hu Hf served d'. subst d' served.
  unfold postServer, dispatch, validateCreateServer.
  destruct (createServerSchema zodIp body) as [paths|serverData].
  { cbn. repeat split; try assumption; auto. discriminate. }
  unfold createServer.
  destruct (findUniqueByIp d (i_ip serverData)) as [row|] eqn:Hfind.
  { cbn. repeat split; try assumption; auto. discriminate. }
  rewrite findUniqueByIp_None in Hfind.
  assert (Hseq : servers d !! servers_seq d = None).
  { destruct (servers d !! servers_seq d) eqn:E; [|reflexivity].
    apply Hf in E. lia. }
  unfold create.
  destruct (fitsColumns (newRow serverData)).
  2: { cbn. repeat split; try assumption; auto. discriminate. }
  cbn. split; [|split; [|split; [|split]]].
  - intros k1 k2 s1 s2.
    apply (insert_uniqueIps d (servers_seq d) (newRow serverData) Hu).
    intros k' server Hrow Heq. cbn in Heq.
    exfalso. exact (Hfind _ _ Hrow Heq).
  - intros k server. cbn.
    destruct (decide (k = servers_seq d)) as [-> | Hne].
    + intros _. lia.
    + rewrite lookup_insert_ne by congruence. intros H. apply Hf in H. lia.
  - intros k server Hrow.
    rewrite lookup_insert_ne; [exact Hrow|].
    intros <-. rewrite Hseq in Hrow. discriminate.
  - intros _. apply map_size_insert_None. exact Hseq.
  - intros H. contradiction H. reflexivity.
Qed.

End ServerFeatureMoreFacts.

Section ServerFeatureExamples.

Import ServerFeature.

Lemma postServer_keeps_table_sound_witness :
  let zodIp := fun _ : string => true in
  let body := mkCreateServerBody (Given "10.0.0.5") Omitted (Given 5) Omitted in
  let d := mkDb ∅ 1 ∅ ∅ in
  uniqueIps (db_after (postServer zodIp body d))
  /\ freshSeq (db_after (postServer zodIp body d)).
Proof.
  intros zodIp body d.
  destruct (postServer_keeps_table_sound zodIp body d) as (Hu & Hf & _).
  - intros k1 k2 s1 s2 H. cbn in H. rewrite lookup_empty in H. discriminate.
  - intros k s H. cbn in H. rewrite lookup_empty in H. discriminate.
  - split; assumption.
Defined.

End ServerFeatureExamples.

Section ServerUpdateDeleteFacts.

Import ServerFeature.

Lemma updateServerSchema_ip (zodIp : string -> bool) (body : UpdateServerBody)
  (updateData : UpdateServerInput) (address : string) :
  updateServerSchema zodIp body = inr updateData ->
  u_ip updateData = Some address ->
  zodIp address = true.
Proof.
  unfold updateServerSchema.
  destruct (optionalIpSchema zodIp (ub_ip body)) as [e|i] eqn:Hi.
  { destruct (descriptionSchema _), (optionalCounterSchema _ _),
      (optionalCounterSchema _ _); discriminate. }
  destruct (descriptionSchema (ub_description body)) as [e|de].
  { destruct (optionalCounterSchema _ _), (optionalCounterSchema _ _);
      discriminate. }
  destruct (optionalCounterSchema "max_activity_monitoring" _) as [e|m].
  { destruct (optionalCounterSchema _ _); discriminate. }
  destruct (optionalCounterSchema "cur_activity_monitoring" _) as [e|c];
    [discriminate|].
  intros [= <-]. cbn. intros ->.
  unfold optionalIpSchema in Hi.
  destruct (ub_ip body) as [| |s]; try discriminate.
  destruct (zodIp s) eqn:Hs; [|discriminate].
  injection Hi as ->. exact Hs.
Qed.

Local Ltac updated id existing :=
  right; exists id, existing;
  split; [reflexivity|]; split; [eassumption|];
  split; [reflexivity|]; split; [reflexivity|].

Lemma updateServer_outcomes (idParam : string)
  (updateData : UpdateServerInput) (d : Db) :
  (fst (updateServer idParam updateData d) = d
   /\ status (snd (updateServer idParam updateData d)) <> 200)
  \/ exists id existing,
       JS.parseInt (Some idParam) = Some id
       /\ servers d !! id = Some existing
       /\ status (snd (updateServer idParam updateData d)) = 200
       /\ fst (updateServer idParam updateData d)
          = setServers d
              (<[id := applyUpdate existing updateData]> (servers d))
       /\ (ip (applyUpdate existing updateData) = ip existing
           \/ u_ip updateData = Some ""
           \/ forall k server, servers d !! k = Some server ->
                ip server <> ip (applyUpdate existing updateData)).
Proof.
  unfold updateServer.
  destruct (JS.parseInt (Some idParam)) as [id|];
    [|left; split; [reflexivity | discriminate]].
  destruct (servers d !! id) as [existing|] eqn:Hrow;
    [|left; split; [reflexivity | discriminate]].
  destruct (fitsColumns (applyUpdate existing updateData)) eqn:Hfit.
  2: { left.
       destruct (if JS.truthy (u_ip updateData)
                    && negb (String.eqb (default "" (u_ip updateData))
                               (ip existing))
                 then findUniqueByIp d (default "" (u_ip updateData))
                 else None);
         split; try reflexivity; discriminate. }
  destruct (u_ip updateData) as [address|] eqn:Hip.
  - destruct (JS.truthy (Some address)
              && negb (String.eqb (default "" (Some address)) (ip existing)))
      eqn:Hguard.
    + change (default "" (Some address)) with address in *.
      destruct (findUniqueByIp d address) as [row|] eqn:Hfind.
      * left. split; [reflexivity | discriminate].
      * updated id existing.
        right. right. unfold applyUpdate. rewrite Hip.
        apply findUniqueByIp_None. exact Hfind.
    + updated id existing.
      apply andb_false_iff in Hguard as [Ht | He].
      * right. left. destruct address; [reflexivity | discriminate].
      * left. apply negb_false_iff, String.eqb_eq in He.
        unfold applyUpdate. rewrite Hip. exact He.
  - updated id existing.
    left. unfold applyUpdate. rewrite Hip. reflexivity.
Qed.

(** X15. PUT /server/:id keeps the table of servers sound, provided the
    format check refuses the empty string.  If no two rows share an ip,
    none do after the request; no row is added or removed and the id
    counter and the other tables are untouched; writing a server's own
    ip back is not a conflict; and every answer other than 200 leaves
    the database unchanged. *)
Theorem putServer_keeps_table_sound :
  forall (zodIp : string -> bool) (idParam : string)
         (body : UpdateServerBody) (d : Db),
    zodIp "" = false ->
    uniqueIps d ->
    let served := putServer zodIp idParam body d in
    let d' := db_after served in
    uniqueIps d'
    /\ (forall k, is_Some (servers d' !! k) <-> is_Some (servers d !! k))
    /\ servers_seq d' = servers_seq d
    /\ primary_analytics d' = primary_analytics d
    /\ users d' = users d
    /\ (status (response served) <> 200 -> d' = d).
Proof.
  intros zodIp idParam body d Hempty Hu served d'. subst d' served.
  unfold putServer, dispatch, validateUpdateServer.
  destruct (updateServerSchema zodIp body) as [paths|updateData] eqn:Hs.
  { cbn. repeat split; auto. }
  destruct (updateServer idParam updateData d) as [d1 r] eqn:Hupd.
  cbn [db_after response].
  destruct (updateServer_outcomes idParam updateData d)
    as [[Hd Hst] | (id & existing & _ & Hrow & Hst & Hd & Hipcase)];
    rewrite Hupd in *; cbn [fst snd] in *.
  { subst d1. repeat split; auto. }
  subst d1. split; [|split; [|split; [|split; [|split]]]];
    try reflexivity.
  - apply (insert_uniqueIps d id (applyUpdate existing updateData) Hu).
    intros k' server Hk Heq.
    destruct Hipcase as [Hown | [Hbad | Hfresh]].
    + rewrite Hown in Heq. exact (Hu _ _ _ _ Hk Hrow Heq).
    + rewrite (updateServerSchema_ip zodIp body updateData "" Hs Hbad)
        in Hempty. discriminate.
    + exfalso. exact (Hfresh _ _ Hk Heq).
  - intros k. cbn.
    destruct (decide (k = id)) as [-> | Hne].
    + rewrite lookup_insert_eq, Hrow. split; intros _; eauto.
    + rewrite lookup_insert_ne by congruence. reflexivity.
  - intros H. contradiction.
Qed.

Lemma putServer_keeps_table_sound_witness :
  let zodIp := fun s : string => negb (JS.isEmpty s) in
  let d := mkDb {[ 3 := mkServer "10.0.0.5" None 5 1 ]} 4 ∅ ∅ in
  let body := mkUpdateServerBody (Given "10.0.0.5") Omitted (Given 8) Omitted in
  servers (db_after (putServer zodIp "3" body d)) !! 3
  = Some (mkServer "10.0.0.5" None 8 1)
  /\ uniqueIps (db_after (putServer zodIp "3" body d)).
Proof.
  intros zodIp d body. split; [reflexivity|].
  apply (putServer_keeps_table_sound zodIp "3" body d eq_refl).
  intros k1 k2 s1 s2 H1 H2 _. subst d. cbn [servers] in H1, H2.
  apply lookup_singleton_Some in H1 as [<- _].
  apply lookup_singleton_Some in H2 as [<- _]. reflexivity.
Defined.

(** X16. DELETE /server/:id keeps the foreign key of the analytics: if
    every [servers_id] of [primary_analytics] names an existing server
    before the request, it does so after it.  The analytics, the users
    and the id counter are never touched, and an id without a row is
    answered 404 with the database unchanged. *)
Theorem deleteServer_keeps_references :
  forall (idParam : string) (d : Db),
    referencesExist d ->
    let d' := fst (deleteServer idParam d) in
    referencesExist d'
    /\ primary_analytics d' = primary_analytics d
    /\ users d' = users d
    /\ servers_seq d' = servers_seq d
    /\ (forall id, JS.parseInt (Some idParam) = Some id ->
                   servers d !! id = None ->
                   deleteServer idParam d = (d, failure 404 "Server not found")).
Proof.
  intros idParam d Href d'. subst d'. unfold deleteServer.
  assert (Hsame : forall r : Response ServerView,
            (forall id, JS.parseInt (Some idParam) = Some id ->
                        servers d !! id = None ->
                        (d, r) = (d, failure 404 "Server not found")) ->
            referencesExist d
            /\ primary_analytics d = primary_analytics d
            /\ users d = users d
            /\ servers_seq d = servers_seq d
            /\ (forall id, JS.parseInt (Some idParam) = Some id ->
                           servers d !! id = None ->
                           (d, r) = (d, failure 404 "Server not found"))).
  { intros r Hr. split; [exact Href|]. split; [reflexivity|].
    split; [reflexivity|]. split; [reflexivity | exact Hr]. }
  destruct (JS.parseInt (Some idParam)) as [id|] eqn:Hid.
  2: { apply Hsame. intros id. discriminate. }
  destruct (servers d !! id) as [existing|] eqn:Hrow.
  2: { apply Hsame. intros id' _ _. reflexivity. }
  destruct (0 <? countAnalytics d id) eqn:Hc.
  { apply Hsame. intros id' [= <-] H. congruence. }
  cbn [fst]. split; [|split; [reflexivity|]; split; [reflexivity|];
                      split; [reflexivity|]; intros id' [= <-] H; congruence].
  intros k analytic sid Hk Hsid. cbn in Hk |- *.
  destruct (decide (sid = id)) as [-> | Hne].
  - exfalso. apply Z.ltb_ge in Hc.
    assert (0 < countAnalytics d id)
      by (apply countAnalytics_pos; eauto).
    lia.
  - rewrite lookup_delete_ne by congruence. exact (Href _ _ _ Hk Hsid).
Qed.

(** Two servers and an analytic attached to the second: deleting the
    first removes its row and leaves the analytic with its server. *)
Lemma deleteServer_keeps_references_witness :
  let gate := mkPrimaryAnalytic "gate" "active" (Some 4) 1 in
  let d := mkDb (<[ 3 := mkServer "10.0.0.5" None 5 0 ]>
                   {[ 4 := mkServer "10.0.0.6" None 5 1 ]}) 5
             {[ 1 := gate ]} ∅ in
  let d' := fst (deleteServer "3" d) in
  servers d' !! 3 = None
  /\ primary_analytics d' !! 1 = Some gate
  /\ servers d' !! 4 = Some (mkServer "10.0.0.6" None 5 1)
  /\ referencesExist d'.
Proof.
  intros gate d d'.
  assert (Hd : referencesExist d).
  { intros k analytic sid Hk Hsid. subst d. cbn [primary_analytics] in Hk.
    apply lookup_singleton_Some in Hk as [_ <-].
    cbn in Hsid. injection Hsid as <-. cbn [servers].
    rewrite lookup_insert_ne by lia. rewrite lookup_singleton_eq. eauto. }
  destruct (deleteServer_keeps_references "3" d Hd)
    as (Href & Hpa & _ & _ & _).
  fold d' in Href, Hpa.
  split; [vm_compute; reflexivity|].
  split; [rewrite Hpa; apply lookup_singleton_eq|].
  split; [vm_compute; reflexivity | exact Href].
Defined.

(** X17. What POST /server answers is what GET /server/:id reads back:
    after a 201, a GET whose path parameter parses to the id of the
    returned view is answered 200 with the same view, and changes
    nothing. *)
Theorem postServer_then_getServerById :
  forall (zodIp : string -> bool) (body : CreateServerBody) (d : Db)
         (created : ServerView) (idParam : string),
    let served := postServer zodIp body d in
    status (response served) = 201 ->
    data (response served) = Some created ->
    JS.parseInt (Some idParam) = Some (v_id created) ->
    fst (getServerById idParam (db_after served)) = db_after served
    /\ status (snd (getServerById idParam (db_after served))) = 200
    /\ data (snd (getServerById idParam (db_after served))) = Some created.
Proof.
  intros zodIp body d created idParam served. subst served.
  unfold postServer, dispatch, validateCreateServer.
  destruct (createServerSchema zodIp body) as [paths|serverData];
    [cbn; discriminate|].
  unfold createServer.
  destruct (findUniqueByIp d (i_ip serverData)); [cbn; discriminate|].
  unfold create.
  destruct (fitsColumns (newRow serverData)); [|cbn; discriminate].
  cbn [db_after response status data]. intros _ [= <-] Hid.
  cbn [v_id view] in Hid. unfold getServerById. rewrite Hid.
  cbn [servers]. rewrite lookup_insert_eq. cbn. repeat split.
Qed.

Lemma postServer_then_getServerById_witness :
  let zodIp := fun _ : string => true in
  let body := mkCreateServerBody (Given "10.0.0.5") Omitted (Given 5) Omitted in
  let d := mkDb ∅ 12 ∅ ∅ in
  status (snd (getServerById "12" (db_after (postServer zodIp body d)))) = 200.
Proof.
  intros zodIp body d.
  destruct (postServer_then_getServerById zodIp body d
              (mkServerView 12 (mkServer "10.0.0.5" None 5 0) [] 0) "12"
              eq_refl eq_refl eq_refl) as (_ & H & _).
  exact H.
Defined.

End ServerUpdateDeleteFacts.

(** ** The availability check of GET /server/check-availability/:typeAnalyticId *)

Section AvailabilityFacts.

Import ServerFeature.

Lemma insertById_In {A} (row : Z * A) (rows : list (Z * A)) (x : Z * A) :
  In x (insertById row rows) <-> x = row \/ In x rows.
Proof.
  induction rows as [|r rows IH]; cbn.
  - intuition auto.
  - destruct (fst row <=? fst r); cbn; rewrite ?IH; intuition auto.
Qed.

Lemma orderById_In {A} (rows : list (Z * A)) (x : Z * A) :
  In x (orderById rows) <-> In x rows.
Proof.
  induction rows as [|r rows IH]; [reflexivity|].
  change (orderById (r :: rows)) with (insertById r (orderById rows)).
  rewrite insertById_In, IH. cbn. intuition auto.
Qed.

Lemma insertById_length {A} (row : Z * A) (rows : list (Z * A)) :
  length (insertById row rows) = S (length rows).
Proof.
  induction rows as [|r rows IH]; [reflexivity|]. cbn.
  destruct (fst row <=? fst r); cbn; [reflexivity | rewrite IH; reflexivity].
Qed.

Lemma orderById_length {A} (rows : list (Z * A)) :
  length (orderById rows) = length rows.
Proof.
  induction rows as [|r rows IH]; [reflexivity|].
  change (orderById (r :: rows)) with (insertById r (orderById rows)).
  rewrite insertById_length, IH. reflexivity.
Qed.

Lemma fold_left_sum {A} (f : A -> Z) (rows : list A) (a : Z) :
  fold_left (fun sum row => sum + f row) rows a = a + sumOf f rows.
Proof.
  unfold sumOf. revert a. induction rows as [|r rows IH]; intros a.
  - cbn. lia.
  - cbn [fold_left]. rewrite (IH (a + f r)), (IH (0 + f r)). lia.
Qed.

Lemma sumOf_cons {A} (f : A -> Z) (r : A) (rows : list A) :
  sumOf f (r :: rows) = f r + sumOf f rows.
Proof. unfold sumOf at 1. cbn. apply fold_left_sum. Qed.

(** Among servers within their capacity, the free capacity of the table
    is the free capacity of the servers that are not full. *)
Lemma free_capacity_of_listed (d : Db) (rows : list (Z * Server)) :
  (forall row, In row rows ->
     cur_activity_monitoring (snd row) <= max_activity_monitoring (snd row)) ->
  sumOf (fun server => max_activity_monitoring (snd server)) rows
  - sumOf (fun server => cur_activity_monitoring (snd server)) rows
  = sumOf a_availableCapacity
      (map (toAvailableServer d)
         (List.filter
            (fun server =>
               cur_activity_monitoring (snd server)
               <? max_activity_monitoring (snd server)) rows)).
Proof.
  induction rows as [|r rows IH]; intros Hc; [reflexivity|].
  rewrite !sumOf_cons. cbn [List.filter].
  pose proof (Hc r (or_introl eq_refl)) as Hr.
  specialize (IH (fun row H => Hc row (or_intror H))).
  destruct (Z.ltb_spec (cur_activity_monitoring (snd r))
              (max_activity_monitoring (snd r))).
  - cbn [map]. rewrite sumOf_cons. cbn [a_availableCapacity toAvailableServer].
    lia.
  - lia.
Qed.

(** X18. The availability check for type 1, on a table whose counters
    lie between 0 and their maximum: the answer is 200 and changes
    nothing; it lists exactly the servers with [cur < max], each with
    its positive free capacity [max - cur]; it counts every server of
    the table; and the free capacity it reports, [totalCapacity -
    totalUsage], is the sum of the free capacities of the listed
    servers. *)
Theorem checkTypeAnalyticAvailability_totals :
  forall (typeAnalytics : gmap Z string) (typeAnalyticId name : string)
         (d : Db),
    JS.parseInt (Some typeAnalyticId) = Some 1 ->
    typeAnalytics !! 1 = Some name ->
    ServerSelection.consistentCounters d ->
    let result := checkTypeAnalyticAvailability typeAnalytics typeAnalyticId d in
    fst result = d
    /\ status (snd result) = 200
    /\ (exists totalCapacity totalUsage,
          data (snd result)
          = Some (Supported 1 name
                    (Z.of_nat (size (servers d)))
                    (Z.of_nat (length (listedServers (snd result))))
                    totalCapacity totalUsage
                    (sumOf a_availableCapacity (listedServers (snd result)))
                    (listedServers (snd result)))
          /\ totalCapacity - totalUsage
             = sumOf a_availableCapacity (listedServers (snd result)))
    /\ (forall s, In s (listedServers (snd result)) ->
          exists server,
            servers d !! a_id s = Some server
            /\ s = toAvailableServer d (a_id s, server)
            /\ 0 < a_availableCapacity s)
    /\ (forall id server,
          servers d !! id = Some server ->
          cur_activity_monitoring server < max_activity_monitoring server ->
          In (toAvailableServer d (id, server)) (listedServers (snd result))).
Proof.
  intros typeAnalytics typeAnalyticId name d Hid Hname Hc result.
  subst result. unfold checkTypeAnalyticAvailability.
  rewrite Hid, Hname. cbn [Z.eqb Pos.eqb negb fst snd status].
  unfold listedServers. cbn [data].
  set (rows := orderById (map_to_list (servers d))).
  assert (Hrows : forall k server,
            In (k, server) rows <-> servers d !! k = Some server).
  { intros k server. unfold rows. rewrite orderById_In.
    rewrite <- list_elem_of_In. apply elem_of_map_to_list. }
  assert (Hfree := free_capacity_of_listed d rows).
  assert (Hwithin : forall row, In row rows ->
            cur_activity_monitoring (snd row)
            <= max_activity_monitoring (snd row)).
  { intros [k server] Hin. apply Hrows in Hin. apply Hc in Hin. cbn. lia. }
  specialize (Hfree Hwithin).
  assert (Hlen : length rows = size (servers d)).
  { unfold rows. rewrite orderById_length. apply length_map_to_list. }
  split; [reflexivity|]. split; [reflexivity|]. split; [|split].
  - exists (sumOf (fun server => max_activity_monitoring (snd server)) rows),
      (sumOf (fun server => cur_activity_monitoring (snd server)) rows).
    split; [|exact Hfree].
    rewrite Hfree, Hlen. reflexivity.
  - intros s Hin. apply in_map_iff in Hin as ([k server] & <- & Hin).
    apply filter_In in Hin as [Hin Hlt]. cbn in Hlt.
    apply Z.ltb_lt in Hlt. apply Hrows in Hin.
    exists server. cbn. split; [exact Hin|]. split; [reflexivity | lia].
  - intros id server Hrow Hlt. apply in_map. apply filter_In.
    split; [apply Hrows; exact Hrow | cbn; apply Z.ltb_lt; exact Hlt].
Qed.

Lemma checkTypeAnalyticAvailability_totals_witness :
  let d := mkDb {[ 1 := mkServer "10.0.0.5" None 4 1 ]} 2 ∅ ∅ in
  let result :=
    checkTypeAnalyticAvailability {[ 1 := "activity_monitoring" ]} "1" d in
  status (snd result) = 200
  /\ listedServers (snd result)
     = [mkAvailableServer 1 "10.0.0.5" None 4 1 3 0].
Proof.
  intros d result. split; [|reflexivity].
  destruct (checkTypeAnalyticAvailability_totals
              {[ 1 := "activity_monitoring" ]} "1" "activity_monitoring" d
              eq_refl (lookup_singleton_eq _ _)) as (_ & H & _); [|exact H].
  intros k server Hrow. subst d. cbn [servers] in Hrow.
  apply lookup_singleton_Some in Hrow as [<- <-]. cbn. lia.
Defined.

(** X19. Selection and the availability check agree: a server that
    [selectBestServer] returns for type 1 and a required capacity of at
    least 1 is among the servers the availability check lists, with the
    same free capacity. *)
Theorem selectBestServer_is_listed :
  forall (typeAnalytics : gmap Z string) (typeAnalyticId name : string)
         (d : Db) (options : ServerSelection.ServerSelectionOptions)
         (best : ServerSelection.ServerCapacityInfo),
    JS.parseInt (Some typeAnalyticId) = Some 1 ->
    typeAnalytics !! 1 = Some name ->
    1 <= default 1 (ServerSelection.requiredCapacity options) ->
    ServerSelection.selectBestServer d 1 options = Some best ->
    exists s,
      In s (listedServers
              (snd (checkTypeAnalyticAvailability typeAnalytics
                      typeAnalyticId d)))
      /\ a_id s = ServerSelection.id best
      /\ a_availableCapacity s = ServerSelection.availableCapacity best.
Proof.
  intros typeAnalytics typeAnalyticId name d options best Hid Hname Hreq Hsel.
  destruct (selectBestServer_head d options 1) as (candidates & Hhead & Hc).
  rewrite Hhead in Hsel. apply sort_head_In, Hc in Hsel as [Hin He].
  apply getServerCapacityInfo_In in Hin as (server & Hrow & Hs).
  destruct He as (_ & Hav & _). rewrite Hs in Hav.
  cbn [ServerSelection.availableCapacity ServerSelection.capacityInfo snd]
    in Hav.
  exists (toAvailableServer d (ServerSelection.id best, server)).
  split; [|split; [reflexivity | rewrite Hs; reflexivity]].
  unfold checkTypeAnalyticAvailability. rewrite Hid, Hname.
  cbn [Z.eqb Pos.eqb negb snd]. unfold listedServers. cbn [data].
  apply in_map. apply filter_In. split.
  - apply orderById_In. rewrite <- list_elem_of_In.
    apply elem_of_map_to_list. exact Hrow.
  - cbn. apply Z.ltb_lt. lia.
Qed.

Lemma selectBestServer_is_listed_witness :
  let d := mkDb {[ 1 := mkServer "10.0.0.5" None 4 1 ]} 2 ∅ ∅ in
  exists s,
    In s (listedServers
            (snd (checkTypeAnalyticAvailability
                    {[ 1 := "activity_monitoring" ]} "1" d)))
    /\ a_id s = 1
    /\ a_availableCapacity s = 3.
Proof.
  intros d.
  apply (selectBestServer_is_listed {[ 1 := "activity_monitoring" ]} "1"
           "activity_monitoring" d ServerSelection.defaultOptions
           (ServerSelection.capacityInfo (1, mkServer "10.0.0.5" None 4 1))
           eq_refl (lookup_singleton_eq _ _));
    [cbn; lia | vm_compute; reflexivity].
Defined.

End AvailabilityFacts.

(** ** Guards: who gets through, and how the guards compose *)

Section GuardsMoreFacts.

Import Middleware.

Context {D : Type}.
Variable jwtVerify : string -> string -> option JwtPayload.
Variable now : string.
Variable env : Env.

Let secret := default "your-secret-key" (JS.orElse (JWT_SECRET env) None).

Lemma truthy_inv (o : option string) :
  JS.truthy o = true -> exists token, o = Some token /\ token <> "".
Proof.
  destruct o as [[|c s]|]; try discriminate.
  intros _. exists (String c s). split; [reflexivity | discriminate].
Qed.

(** X20. [authenticateToken] lets a request through exactly when its
    [auth_token] cookie is not empty, verifies under the secret, and
    names a user that still exists; the request then carries that user's
    id and role names and is otherwise unchanged.  Every refusal is a
    401 or a 403. *)
Theorem authenticateToken_passes :
  forall (d : Db) (req : Request),
    (forall req',
        authenticateToken (D := D) jwtVerify env d req = Next req' <->
        exists token decoded user,
          cookies_auth_token req = Some token
          /\ token <> ""
          /\ jwtVerify token secret = Some decoded
          /\ users d !! userId decoded = Some user
          /\ req' = setUser req (mkAuthUser (userId decoded) (roles user)))
    /\ (forall r,
           authenticateToken (D := D) jwtVerify env d req = Respond r ->
           status r = 401 \/ status r = 403).
Proof.
  intros d req. unfold authenticateToken. fold secret. split.
  - intros req'. split.
    + destruct (JS.truthy (cookies_auth_token req)) eqn:Ht; [|discriminate].
      apply truthy_inv in Ht as (token & Hc & Hne). rewrite Hc.
      cbn [negb]. change (default "" (Some token)) with token.
      destruct (jwtVerify token secret) as [decoded|] eqn:Hv; [|discriminate].
      destruct (users d !! userId decoded) as [user|] eqn:Hu; [|discriminate].
      intros [= <-]. exists token, decoded, user. repeat split; assumption.
    + intros (token & decoded & user & Hc & Hne & Hv & Hu & ->).
      rewrite Hc, (truthy_Some token Hne). cbn [negb].
      change (default "" (Some token)) with token.
      rewrite Hv, Hu. reflexivity.
  - intros r.
    destruct (JS.truthy (cookies_auth_token req)); cbn [negb].
    + destruct (jwtVerify _ secret) as [decoded|].
      * destruct (users d !! userId decoded); [discriminate|].
        intros [= <-]. left. reflexivity.
      * intros [= <-]. right. reflexivity.
    + intros [= <-]. left. reflexivity.
Qed.

(** X21. [optionalAuthenticateToken] never answers itself: it lets
    through the request that [authenticateToken] would let through, and
    the untouched request wherever [authenticateToken] would refuse. *)
Theorem optionalAuthenticateToken_never_blocks :
  forall (d : Db) (req : Request),
    optionalAuthenticateToken (D := D) jwtVerify env d req
    = match authenticateToken (D := D) jwtVerify env d req with
      | Next req' => Next req'
      | Respond _ => Next req
      end.
Proof.
  intros d req. unfold optionalAuthenticateToken, authenticateToken.
  destruct (negb (JS.truthy (cookies_auth_token req))); [reflexivity|].
  destruct (jwtVerify _ _) as [decoded|]; [|reflexivity].
  destruct (users d !! userId decoded); reflexivity.
Qed.

(** X22. [flexibleAuth] accepts either guard: a request that
    [authenticateToken] lets through goes on as that guard prepares it,
    marked [user_auth]; otherwise a request that [requireGeneralToken]
    lets through goes on as that guard prepares it, marked
    [general_token]; a request that both refuse is answered 401.
    [optionalFlexibleAuth] does the same and lets the untouched request
    through where both refuse. *)
Theorem flexibleAuth_accepts_either :
  forall (d : Db) (req : FlexibleAuthRequest),
    flexibleAuth (D := D) jwtVerify now env d req
    = match authenticateToken (D := D) jwtVerify env d (f_request req) with
      | Next req' => Next (mkFlexibleAuthRequest req' (Some user_auth))
      | Respond _ =>
          match requireGeneralToken (D := D) now env d (f_request req) with
          | Next req' => Next (mkFlexibleAuthRequest req' (Some general_token))
          | Respond _ =>
              Respond
                (mkResponse 401 false
                   "Authentication required. Please provide either a valid user session token or a general access token."
                   (Some "AUTHENTICATION_REQUIRED") [] None)
          end
      end
    /\ optionalFlexibleAuth (D := D) jwtVerify now env d req
       = match flexibleAuth (D := D) jwtVerify now env d req with
         | Next req' => Next req'
         | Respond _ => Next req
         end.
Proof.
  intros d req. split.
  - unfold flexibleAuth, tryUserAuth, tryGeneralToken, authenticateToken,
      requireGeneralToken, requireSecurityToken.
    destruct (JS.truthy (cookies_auth_token (f_request req))); cbn [negb].
    + destruct (jwtVerify _ _) as [decoded|].
      * destruct (users d !! userId decoded); [reflexivity|].
        destruct (JS.truthy (headerToken (headers (f_request req))));
          cbn [negb]; [|reflexivity].
        destruct (verifySecurityToken env _ (Some "general")); reflexivity.
      * destruct (JS.truthy (headerToken (headers (f_request req))));
          cbn [negb]; [|reflexivity].
        destruct (verifySecurityToken env _ (Some "general")); reflexivity.
    + destruct (JS.truthy (headerToken (headers (f_request req))));
        cbn [negb]; [|reflexivity].
      destruct (verifySecurityToken env _ (Some "general")); reflexivity.
  - unfold optionalFlexibleAuth, flexibleAuth.
    destruct (tryUserAuth jwtVerify env d req); [reflexivity|].
    destruct (tryGeneralToken now env req); reflexivity.
Qed.

Lemma tokenList_trimmed (v : option string) (token : string) :
  In token (tokenList v) -> JS.trim token = token.
Proof.
  unfold tokenList. destruct v as [s|]; [|intros []].
  rewrite in_map_iff. intros (piece & <- & _). apply trim_idempotent.
Qed.

Lemma purposeTokens_cases (staticTokens : StaticTokens) (purpose : string)
  (token : string) :
  In token (purposeTokens staticTokens purpose) ->
  In token (t_registration staticTokens ++ t_admin staticTokens
            ++ t_sensitive staticTokens ++ t_general staticTokens)%list
  /\ In purpose ["registration"; "admin"; "sensitive"; "general"].
Proof.
  unfold purposeTokens.
  destruct (String.eqb_spec purpose "registration") as [-> | _].
  { intros H. split; [|cbn; tauto]. apply in_app_iff. tauto. }
  destruct (String.eqb_spec purpose "admin") as [-> | _].
  { intros H. split; [|cbn; tauto]. rewrite !in_app_iff. tauto. }
  destruct (String.eqb_spec purpose "sensitive") as [-> | _].
  { intros H. split; [|cbn; tauto]. rewrite !in_app_iff. tauto. }
  destruct (String.eqb_spec purpose "general") as [-> | _].
  { intros H. split; [|cbn; tauto]. rewrite !in_app_iff. tauto. }
  intros [].
Qed.

(** X23. What [verifySecurityToken] accepts.  A token accepted for a
    purpose is accepted when no purpose is asked for; a purpose other
    than the four configured ones accepts nothing; a token with white
    space at either end is never accepted, since the configured tokens
    are trimmed while the presented one is not; and with none of the
    four environment variables set, no token is accepted at all. *)
Theorem verifySecurityToken_accepts :
  forall (token : string) (purpose : option string),
    (verifySecurityToken env token purpose = true ->
     verifySecurityToken env token None = true
     /\ JS.trim token = token)
    /\ (forall p, purpose = Some p -> p <> "" ->
          ~ In p ["registration"; "admin"; "sensitive"; "general"] ->
          verifySecurityToken env token purpose = false)
    /\ (REGISTRATION_TOKENS env = None -> ADMIN_TOKENS env = None ->
        SENSITIVE_TOKENS env = None -> GENERAL_TOKENS env = None ->
        verifySecurityToken env token purpose = false).
Proof.
  intros token purpose.
  assert (Hall : forall t,
            In t (t_registration (getStaticTokens env)
                  ++ t_admin (getStaticTokens env)
                  ++ t_sensitive (getStaticTokens env)
                  ++ t_general (getStaticTokens env))%list ->
            JS.trim t = t).
  { intros t. rewrite !in_app_iff. cbn.
    intros [H | [H | [H | H]]]; exact (tokenList_trimmed _ _ H). }
  split; [|split].
  - unfold verifySecurityToken.
    destruct (JS.truthy purpose) eqn:Hp; cbn [negb JS.truthy].
    + intros Hin. apply JS_includes_In, purposeTokens_cases in Hin as [Hin _].
      split; [apply JS_includes_In; exact Hin | apply Hall; exact Hin].
    + intros Hin. split; [exact Hin|].
      apply JS_includes_In in Hin. apply Hall. exact Hin.
  - intros p -> Hne Hnot. unfold verifySecurityToken.
    rewrite (truthy_Some p Hne). cbn [negb].
    change (default "" (Some p)) with p.
    destruct (JS.includes (purposeTokens (getStaticTokens env) p) token) eqn:E;
      [|reflexivity].
    apply JS_includes_In, purposeTokens_cases in E as [_ E]. contradiction.
  - intros H1 H2 H3 H4. unfold verifySecurityToken, getStaticTokens.
    rewrite H1, H2, H3, H4. cbn [tokenList].
    destruct (negb (JS.truthy purpose)); [reflexivity|].
    unfold purposeTokens. cbn.
    repeat match goal with |- context [if ?b then _ else _] => destruct b end;
      reflexivity.
Qed.

Lemma substring_length_le (n m : nat) (s : string) :
  (String.length (substring n m s) <= m)%nat.
Proof.
  revert n m. induction s as [|c s IH]; intros n m.
  - destruct n, m; cbn; lia.
  - destruct n as [|n]; cbn.
    + destruct m as [|m]; cbn; [lia|]. specialize (IH 0%nat m). lia.
    + apply IH.
Qed.

Lemma append_length (a b : string) :
  String.length (a ++ b) = (String.length a + String.length b)%nat.
Proof.
  induction a as [|c a IH]; [reflexivity|].
  change (S (String.length (a ++ b))
          = S (String.length a + String.length b)%nat).
  f_equal. exact IH.
Qed.

(** X24. [requireSecurityToken] lets a request through exactly when the
    token it reads from the headers is not empty and is accepted for the
    purpose; the request then carries the first eight characters of the
    token followed by three stars (never more than eleven characters),
    the purpose and the time, and is otherwise unchanged.  Every refusal
    is a 401 (no token) or a 403 (a token that is not accepted). *)
Theorem requireSecurityToken_passes :
  forall (purpose : option string) (d : Db) (req : Request),
    (forall req',
        requireSecurityToken (D := D) now env purpose d req = Next req' <->
        exists token,
          headerToken (headers req) = Some token
          /\ token <> ""
          /\ verifySecurityToken env token purpose = true
          /\ req' = setSecurityToken req
                      (mkSecurityToken (substring 0 8 token ++ "***")
                         purpose now)
          /\ (String.length (substring 0 8 token ++ "***") <= 11)%nat)
    /\ (forall r,
           requireSecurityToken (D := D) now env purpose d req = Respond r ->
           (status r = 401 /\ JS.truthy (headerToken (headers req)) = false)
           \/ (status r = 403 /\ JS.truthy (headerToken (headers req)) = true)).
Proof.
  intros purpose d req. unfold requireSecurityToken. split.
  - intros req'. split.
    + destruct (JS.truthy (headerToken (headers req))) eqn:Ht; [|discriminate].
      apply truthy_inv in Ht as (token & Hh & Hne). rewrite Hh.
      cbn [negb]. change (default "" (Some token)) with token.
      destruct (verifySecurityToken env token purpose) eqn:Hv; [|discriminate].
      cbn [negb]. intros [= <-]. exists token.
      split; [reflexivity|]. split; [exact Hne|]. split; [exact Hv|].
      split; [reflexivity|].
      rewrite append_length. pose proof (substring_length_le 0 8 token).
      cbn [String.length]. lia.
    + intros (token & Hh & Hne & Hv & -> & _).
      rewrite Hh, (truthy_Some token Hne). cbn [negb].
      change (default "" (Some token)) with token. rewrite Hv. reflexivity.
  - intros r.
    destruct (JS.truthy (headerToken (headers req))); cbn [negb].
    + destruct (verifySecurityToken env _ purpose); cbn [negb];
        [discriminate|].
      intros [= <-]. right. split; reflexivity.
    + intros [= <-]. left. split; reflexivity.
Qed.

End GuardsMoreFacts.

(** ** The rate limiter *)

Section RateLimitFacts.

Import Middleware.

Variables maxRequests windowMs : Z.
Variable ip : option string.

Let identifier := default "unknown" (JS.orElse ip None).

Lemma rateLimit_within_window (now : Z) (m : gmap string RateRecord)
  (c R : Z) :
  m !! identifier = Some (mkRateRecord c R) ->
  now <= R ->
  rateLimit maxRequests windowMs ip now m
  = if maxRequests <=? c
    then (m, Respond
               (mkResponse 429 false "Too many requests. Please try again later."
                  (Some "RATE_LIMITED") []
                  (Some (JS.ceilDiv (R - now) 1000))))
    else (<[identifier := mkRateRecord (c + 1) R]> m, Next tt).
Proof.
  intros Hm Hnow. unfold rateLimit. fold identifier. rewrite Hm.
  cbn [resetTime count].
  destruct (Z.ltb_spec R now); [lia | reflexivity].
Qed.

Lemma rateLimitAll_within_window (times : list Z) :
  forall (m : gmap string RateRecord) (c R : Z),
    m !! identifier = Some (mkRateRecord c R) ->
    (forall now, In now times -> now <= R) ->
    snd (rateLimitAll maxRequests windowMs ip times m)
    = Z.min (Z.of_nat (length times)) (Z.max 0 (maxRequests - c)).
Proof.
  induction times as [|now later IH]; intros m c R Hm Htimes.
  - cbn. lia.
  - cbn [rateLimitAll].
    rewrite (rateLimit_within_window now m c R Hm)
      by (apply Htimes; left; reflexivity).
    assert (Hlater : forall t, In t later -> t <= R)
      by (intros t Ht; apply Htimes; right; exact Ht).
    destruct (Z.leb_spec maxRequests c) as [Hfull | Hroom].
    + specialize (IH m c R Hm Hlater).
      destruct (rateLimitAll maxRequests windowMs ip later m) as [m' passed].
      cbn [snd] in *. rewrite IH. cbn [length]. lia.
    + specialize (IH (<[identifier := mkRateRecord (c + 1) R]> m) (c + 1) R
                    (lookup_insert_eq _ _ _) Hlater).
      destruct (rateLimitAll maxRequests windowMs ip later _) as [m' passed].
      cbn [snd] in *. rewrite IH. cbn [length]. lia.
Qed.

(** X25. The limit of a window.  A client without an entry in the table
    sends a request at [start] and more requests no later than [start +
    windowMs]: the number of requests let through is the number sent,
    capped at [maxRequests], or at 1 if [maxRequests] is lower, since
    the request that opens a window always passes. *)
Theorem rateLimit_window_cap :
  forall (start : Z) (later : list Z) (m : gmap string RateRecord),
    m !! identifier = None ->
    (forall now, In now later -> now <= start + windowMs) ->
    snd (rateLimitAll maxRequests windowMs ip (start :: later) m)
    = Z.min (Z.of_nat (length (start :: later))) (Z.max 1 maxRequests).
Proof.
  intros start later m Hm Hlater. cbn [rateLimitAll].
  unfold rateLimit at 1. fold identifier. rewrite Hm.
  pose proof (rateLimitAll_within_window later
                (<[identifier := mkRateRecord 1 (start + windowMs)]> m)
                1 (start + windowMs) (lookup_insert_eq _ _ _) Hlater) as H.
  destruct (rateLimitAll maxRequests windowMs ip later _) as [m' passed].
  cbn [snd] in *. rewrite H. cbn [length]. lia.
Qed.

(** X26. One request at the rate limiter.  A refusal is a 429, leaves
    the table as it is and only happens to a client whose window is
    still open and whose count has reached [maxRequests]; the
    [retryAfter] it carries is the time left in the window in whole
    seconds, rounded up.  The entries of the other clients are never
    touched. *)
Theorem rateLimit_refusal :
  forall (now : Z) (m : gmap string RateRecord),
    let m' := fst (rateLimit maxRequests windowMs ip now m) in
    (forall r,
        snd (rateLimit maxRequests windowMs ip now m) = Respond r ->
        status r = 429
        /\ m' = m
        /\ exists record retryAfter,
             m !! identifier = Some record
             /\ now <= resetTime record
             /\ maxRequests <= count record
             /\ data r = Some retryAfter
             /\ (retryAfter - 1) * 1000 < resetTime record - now
                <= retryAfter * 1000)
    /\ (forall other, other <> identifier -> m' !! other = m !! other).
Proof.
  intros now m m'. subst m'. unfold rateLimit. fold identifier.
  destruct (m !! identifier) as [record|] eqn:Hm.
  - destruct (Z.ltb_spec (resetTime record) now) as [Hexp | Hopen].
    + split; [discriminate|].
      intros other Hne. cbn. apply lookup_insert_ne. congruence.
    + destruct (Z.leb_spec maxRequests (count record)) as [Hfull | Hroom].
      * split; [|reflexivity].
        intros r [= <-]. split; [reflexivity|]. split; [reflexivity|].
        exists record, (JS.ceilDiv (resetTime record - now) 1000).
        split; [reflexivity|]. split; [exact Hopen|]. split; [exact Hfull|].
        split; [reflexivity|].
        apply (ceilDiv_bounds (resetTime record - now) 1000). lia.
      * split; [discriminate|].
        intros other Hne. cbn. apply lookup_insert_ne. congruence.
  - split; [discriminate|].
    intros other Hne. cbn. apply lookup_insert_ne. congruence.
Qed.

End RateLimitFacts.

Section RateLimitExamples.

Import Middleware.

Lemma rateLimit_window_cap_witness :
  snd (rateLimitAll 3 60000 (Some "203.0.113.9")
         [1000; 2000; 3000; 61000; 61000] ∅)
  = 3.
Proof.
  apply (rateLimit_window_cap 3 60000 (Some "203.0.113.9") 1000
           [2000; 3000; 61000; 61000] ∅ (lookup_empty _)).
  cbn. intros t [<- | [<- | [<- | [<- | []]]]]; lia.
Defined.

(** After the window a new one opens and requests pass again; with a
    limit of 0 the request that opens a window still passes. *)
Example rateLimit_new_window :
  snd (rateLimitAll 3 60000 (Some "203.0.113.9")
         [1000; 2000; 3000; 4000; 61001] ∅) = 4
  /\ snd (rateLimitAll 0 60000 None [1000; 2000] ∅) = 1.
Proof. split; reflexivity. Qed.

End RateLimitExamples.

(** ** Uploads *)

Section UploadFacts.

Import Upload.

(** X27. The callback of [flexibleUpload].  An error of multer is
    answered 400 with the list of acceptable fields.  Without an error
    the request always goes on, with files taken from the uploaded ones
    in their order: the files under an acceptable field name when there
    is at least one, all the files otherwise, so that a request that
    uploaded files never goes on without any. *)
Theorem flexibleUpload_files :
  forall (err : option string) (files : option (list File)),
    match flexibleUpload err files with
    | Respond r =>
        exists msg, err = Some msg /\ status r = 400
                    /\ data r = Some acceptableFields
    | Next kept =>
        err = None
        /\ match files, kept with
           | None, None => True
           | Some fs, Some fs' =>
               (fs <> [] -> fs' <> [])
               /\ ((exists f, In f fs /\ acceptable f) ->
                   fs' = List.filter
                           (fun file =>
                              JS.includes acceptableFields (fieldname file)) fs
                   /\ forall f, In f fs' -> acceptable f)
               /\ ((forall f, In f fs -> ~ acceptable f) -> fs' = fs)
           | _, _ => False
           end
    end.
Proof.
  intros err files. unfold flexibleUpload.
  destruct err as [msg|]; [exists msg; repeat split|].
  destruct files as [fs|]; [|split; [reflexivity | exact I]].
  set (valid := List.filter
                  (fun file => JS.includes acceptableFields (fieldname file))
                  fs).
  assert (Hvalid : forall f, In f valid <-> In f fs /\ acceptable f).
  { intros f. unfold valid, acceptable. rewrite filter_In, JS_includes_In.
    reflexivity. }
  destruct fs as [|f0 fs0] eqn:Hfs.
  - cbn. split; [reflexivity|]. split; [congruence|]. split.
    + intros (f & [] & _).
    + reflexivity.
  - rewrite <- Hfs in *. replace (0 <? length fs)%nat with true
      by (rewrite Hfs; reflexivity).
    cbn [andb]. rewrite andb_true_r.
    destruct (length valid =? 0)%nat eqn:Hlen.
    + apply length_eqb_0 in Hlen.
      split; [reflexivity|]. split; [intros _; rewrite Hfs; discriminate|].
      split.
      * intros (f & Hf & Ha). exfalso.
        assert (H : In f valid) by (apply Hvalid; split; assumption).
        rewrite Hlen in H. exact H.
      * reflexivity.
    + split; [reflexivity|]. split; [|split].
      * intros _ Hnil. rewrite Hnil in Hlen. discriminate.
      * intros _. split; [reflexivity|].
        intros f Hf. apply Hvalid in Hf as [_ Ha]. exact Ha.
      * intros Hnone. exfalso.
        destruct valid as [|f valid'] eqn:Hv; [discriminate|].
        assert (H : In f (f :: valid')) by (left; reflexivity).
        apply Hvalid in H as [Hin Ha]. exact (Hnone f Hin Ha).
Qed.

End UploadFacts.

(** ** The id parameter behind its validators *)

Section ServerParamFacts.

Import ServerFeature.

Lemma isDigit_value (c : ascii) :
  isDigit c = true ->
  JS.isWhiteSpace c = false
  /\ exists v, JS.digitValue c = Some v /\ 0 <= v < 10.
Proof.
  unfold isDigit, JS.isWhiteSpace, JS.digitValue.
  set (n := Z.of_nat (nat_of_ascii c)). intros H.
  apply andb_prop in H as [H1 H2]. rewrite H1, H2. cbn [andb].
  apply Z.leb_le in H1, H2. split.
  - repeat (apply orb_false_intro); apply Z.eqb_neq; lia.
  - exists (n - 48). split; [reflexivity | lia].
Qed.

Lemma parseDigits_allDigits (s : string) :
  forall acc,
    allDigits s = true ->
    match acc with Some a => 0 <= a | None => s <> "" end ->
    exists n, JS.parseDigits 10 s acc = Some n /\ 0 <= n.
Proof.
  induction s as [|c s IH]; intros acc Hs Hacc.
  - destruct acc as [a|]; [exists a; split; [reflexivity | exact Hacc]|].
    contradiction.
  - cbn [allDigits] in Hs. apply andb_prop in Hs as [Hc Hs].
    destruct (isDigit_value c Hc) as (_ & v & Hv & Hrange).
    cbn [JS.parseDigits]. rewrite Hv.
    destruct (Z.ltb_spec v 10); [|lia].
    apply IH; [exact Hs|]. destruct acc as [a|]; nia.
Qed.

Lemma hasHexPrefix_allDigits (s : string) :
  allDigits s = true -> JS.hasHexPrefix s = false.
Proof.
  destruct s as [|a [|b t]]; try reflexivity.
  - destruct a as [[] [] [] [] [] [] [] []]; reflexivity.
  - cbn [allDigits]. intros H.
    apply andb_prop in H as [_ H]. apply andb_prop in H as [Hb _].
    destruct a as [[] [] [] [] [] [] [] []]; try reflexivity;
      destruct b as [[] [] [] [] [] [] [] []]; try reflexivity;
      discriminate.
Qed.

Lemma parseInt_allDigits (id : string) :
  serverParamSchema id = true ->
  exists n, JS.parseInt (Some id) = Some n /\ 0 <= n.
Proof.
  unfold serverParamSchema. intros H. apply andb_prop in H as [Hne Hd].
  destruct id as [|c t]; [discriminate|].
  pose proof Hd as Hd'. cbn [allDigits] in Hd'.
  apply andb_prop in Hd' as [Hc _].
  destruct (isDigit_value c Hc) as (Hws & _).
  unfold JS.parseInt. cbn [JS.trimStart]. rewrite Hws.
  destruct (parseDigits_allDigits (String c t) None Hd ltac:(discriminate))
    as (n & Hn & Hpos).
  exists n. split; [|exact Hpos].
  assert (Hu : JS.parseUnsigned (String c t) = Some n).
  { unfold JS.parseUnsigned.
    rewrite (hasHexPrefix_allDigits (String c t) Hd). exact Hn. }
  destruct c as [[] [] [] [] [] [] [] []]; try exact Hu; discriminate.
Qed.

(** X28. Behind [validateServerParam] and [validateServerExists] the
    server handlers never fail on the id: an id accepted by the first
    parses to a number that is not negative, and for an id accepted by
    both, GET /server/:id answers 200 and DELETE /server/:id answers 200
    or 400, never 404 or 500. *)
Theorem validated_id_parses :
  forall (D : Type) (d : Db) (idParam id : string) (existing : Server),
    validateServerParam (D := D) idParam = Next id ->
    validateServerExists (D := D) d id = Next (id, existing) ->
    id = idParam
    /\ (exists n, JS.parseInt (Some id) = Some n
                  /\ 0 <= n
                  /\ servers d !! n = Some existing)
    /\ status (snd (getServerById id d)) = 200
    /\ (status (snd (deleteServer id d)) = 200
        \/ status (snd (deleteServer id d)) = 400).
Proof.
  intros D d idParam id existing Hparam Hexists.
  unfold validateServerParam in Hparam.
  destruct (serverParamSchema idParam) eqn:Hschema; [|discriminate].
  injection Hparam as <-.
  destruct (parseInt_allDigits idParam Hschema) as (n & Hn & Hpos).
  unfold validateServerExists in Hexists. rewrite Hn in Hexists.
  destruct (servers d !! n) as [server|] eqn:Hrow; [|discriminate].
  injection Hexists as ->.
  split; [reflexivity|]. split; [exists n; auto|].
  unfold getServerById, deleteServer. rewrite Hn, Hrow.
  split; [reflexivity|].
  destruct (0 <? countAnalytics d n); [right | left]; reflexivity.
Qed.

Lemma validated_id_parses_witness :
  let d := mkDb {[ 42 := mkServer "10.0.0.5" None 5 1 ]} 43 ∅ ∅ in
  status (snd (getServerById "42" d)) = 200
  /\ (status (snd (deleteServer "42" d)) = 200
      \/ status (snd (deleteServer "42" d)) = 400).
Proof.
  intros d.
  destruct (validated_id_parses unit d "42" "42" (mkServer "10.0.0.5" None 5 1)
              eq_refl eq_refl) as (_ & _ & Hget & Hdel).
  split; assumption.
Defined.

(** An id with a sign, a space or a letter is refused before any
    handler sees it. *)
Example validateServerParam_refuses :
  status (match validateServerParam (D := unit) "-1" with
          | Respond r => r
          | Next _ => failure 200 ""
          end) = 400
  /\ serverParamSchema " 7" = false
  /\ serverParamSchema "0x10" = false
  /\ serverParamSchema "" = false.
Proof. repeat split. Qed.

End ServerParamFacts.
